(** * automations.py: the log interpretation engine and its store

    A shallow embedding of [LogParser] and of the parts of
    [AutomationCLI] that write to the SQLite store, followed by the
    properties of the engine and of the store.

    Python strings are sequences of Unicode code points, so a [pystr]
    is a list of code points ([N]).  The library functions the parser
    calls ([re.search], [str.lower], [str.strip], [datetime.strptime],
    [datetime.strftime]) are modelled below, each next to the Unicode
    data (CPython 3.11 on glibc, Unicode 14) it reads. *)

From Stdlib Require Import PeanoNat NArith List String Ascii Bool Lia.
Import ListNotations.

Local Open Scope N_scope.

(** ** Unicode: code points and the character database *)
Module Unicode.

Definition codepoint := N.
Definition pystr := list codepoint.

(** Decoding of the UTF-8 bytes of a literal of this file, so that the
    literals of the Python source can be written as they are. *)
Fixpoint utf8_decode (bs : list N) : pystr :=
  match bs with
  | [] => []
  | b :: r =>
    if b <? 128 then b :: utf8_decode r
    else if b <? 224 then
      match r with
      | b1 :: r1 => ((b - 192) * 64 + (b1 - 128)) :: utf8_decode r1
      | _ => []
      end
    else if b <? 240 then
      match r with
      | b1 :: b2 :: r2 =>
        ((b - 224) * 4096 + (b1 - 128) * 64 + (b2 - 128)) :: utf8_decode r2
      | _ => []
      end
    else
      match r with
      | b1 :: b2 :: b3 :: r3 =>
        ((b - 240) * 262144 + (b1 - 128) * 4096 + (b2 - 128) * 64 + (b3 - 128))
          :: utf8_decode r3
      | _ => []
      end
  end.

Definition py (s : string) : pystr :=
  utf8_decode (map N_of_ascii (list_ascii_of_string s)).

Definition in_range (lo hi c : N) : bool := (lo <=? c) && (c <=? hi).

(** [Py_UNICODE_ISSPACE]: the characters [str.strip] removes and the
    regex class [\s] accepts. *)
Definition isspace (c : codepoint) : bool :=
  in_range 9 13 c || in_range 28 32 c || (c =? 133) || (c =? 160)
  || (c =? 5760) || in_range 8192 8202 c || (c =? 8232) || (c =? 8233)
  || (c =? 8239) || (c =? 8287) || (c =? 12288).

(** First code point of every run of ten decimal digits (category Nd). *)
Definition decimal_starts : list N :=
  [ 0x30; 0x660; 0x6f0; 0x7c0; 0x966; 0x9e6; 0xa66; 0xae6; 0xb66; 0xbe6;
    0xc66; 0xce6; 0xd66; 0xde6; 0xe50; 0xed0; 0xf20; 0x1040; 0x1090;
    0x17e0; 0x1810; 0x1946; 0x19d0; 0x1a80; 0x1a90; 0x1b50; 0x1bb0;
    0x1c40; 0x1c50; 0xa620; 0xa8d0; 0xa900; 0xa9d0; 0xa9f0; 0xaa50;
    0xabf0; 0xff10; 0x104a0; 0x10d30; 0x11066; 0x110f0; 0x11136; 0x111d0;
    0x112f0; 0x11450; 0x114d0; 0x11650; 0x116c0; 0x11730; 0x118e0;
    0x11950; 0x11c50; 0x11d50; 0x11da0; 0x16a60; 0x16ac0; 0x16b50;
    0x1d7ce; 0x1d7d8; 0x1d7e2; 0x1d7ec; 0x1d7f6; 0x1e140; 0x1e2f0;
    0x1e950; 0x1fbf0 ].

(** [Py_UNICODE_TODECIMAL]: the value of a decimal digit, if it is one. *)
Definition todecimal (c : codepoint) : option N :=
  match find (fun s => in_range s (s + 9) c) decimal_starts with
  | Some s => Some (c - s)
  | None => None
  end.

Definition isdecimal (c : codepoint) : bool :=
  match todecimal c with Some _ => true | None => false end.

(** [Py_UNICODE_TOLOWER], the simple lowercase mapping the regex engine
    applies under [re.IGNORECASE].  It is exact on every code point
    whose lowercase is in the Latin-1 range (where all characters of
    the program's patterns are) or is the Greek mu; other code points
    are left as they are. *)
Definition tolower (c : codepoint) : codepoint :=
  if in_range 0x41 0x5a c then c + 32
  else if in_range 0xc0 0xde c && negb (c =? 0xd7) then c + 32
  else if c =? 0x130 then 0x69
  else if c =? 0x178 then 0xff
  else if c =? 0x39c then 0x3bc
  else if c =? 0x1e9e then 0xdf
  else if c =? 0x212a then 0x6b
  else if c =? 0x212b then 0xe5
  else c.

(** [_sre.unicode_iscased] on the Latin-1 range. *)
Definition iscased (c : codepoint) : bool :=
  in_range 0x41 0x5a c || in_range 0x61 0x7a c || (c =? 0xb5)
  || (in_range 0xc0 0xff c && negb (c =? 0xd7) && negb (c =? 0xf7)).

(** [re._casefix._EXTRA_CASES] for the lowercase letters of Latin-1:
    other lowercase characters with the same uppercase. *)
Definition extra_cases (lo : codepoint) : list codepoint :=
  if lo =? 0x69 then [0x131]
  else if lo =? 0x73 then [0x17f]
  else if lo =? 0xb5 then [0x3bc]
  else [].

(** The full lowercase mapping of one character, as [str.lower] applies
    it: the simple mapping, but for the dotted capital I. *)
Definition lower_full (c : codepoint) : pystr :=
  if c =? 0x130 then [0x69; 0x307] else [tolower c].

(** [str.lower] *)
Definition lower (s : pystr) : pystr := flat_map lower_full s.

Definition str_eqb (a b : pystr) : bool :=
  if list_eq_dec N.eq_dec a b then true else false.

(** [str.startswith] *)
Fixpoint startswith (pre s : pystr) : bool :=
  match pre, s with
  | [], _ => true
  | p :: pre', c :: s' => (p =? c) && startswith pre' s'
  | _ :: _, [] => false
  end.

(** [needle in s] *)
Fixpoint contains (needle s : pystr) : bool :=
  startswith needle s
  || match s with
     | [] => false
     | _ :: s' => contains needle s'
     end.

(** [str.replace(old, new)] for a non-empty [old]: every occurrence,
    left to right, without overlap. *)
Fixpoint replace_fuel (fuel : nat) (old new s : pystr) : pystr :=
  match fuel with
  | O => s
  | S fuel' =>
    match s with
    | [] => []
    | c :: s' =>
      if startswith old s
      then new ++ replace_fuel fuel' old new (skipn (List.length old) s)
      else c :: replace_fuel fuel' old new s'
    end
  end.

Definition replace (old new s : pystr) : pystr :=
  replace_fuel (S (List.length s)) old new s.

(** [str.lstrip], [str.rstrip], [str.strip] with no argument *)
Fixpoint lstrip (s : pystr) : pystr :=
  match s with
  | c :: s' => if isspace c then lstrip s' else s
  | [] => []
  end.

Definition rstrip (s : pystr) : pystr := rev (lstrip (rev s)).

Definition strip (s : pystr) : pystr := rstrip (lstrip s).

(** [str.split(sep)] for a one-character separator: never empty. *)
Fixpoint split (sep : codepoint) (s : pystr) : list pystr :=
  match s with
  | [] => [[]]
  | c :: s' =>
    if c =? sep then [] :: split sep s'
    else match split sep s' with
         | l :: ls => (c :: l) :: ls
         | [] => [[c]]
         end
  end.

(** [int(s)] on the text of a regex group: surrounding whitespace is
    ignored, every remaining character must be a decimal digit. *)
Fixpoint digits_value (acc : N) (s : pystr) : option N :=
  match s with
  | [] => Some acc
  | c :: s' =>
    match todecimal c with
    | Some v => digits_value (acc * 10 + v) s'
    | None => None
    end
  end.

Definition int (s : pystr) : option N :=
  match strip s with
  | [] => None
  | t => digits_value 0 t
  end.

(** Lexicographic order on code points, the order of SQLite's BINARY
    collation on the UTF-8 encodings. *)
Fixpoint str_ltb (a b : pystr) : bool :=
  match a, b with
  | _, [] => false
  | [], _ :: _ => true
  | x :: a', y :: b' => (x <? y) || ((x =? y) && str_ltb a' b')
  end.

(** The characters [str.isdigit] accepts besides the decimal digits:
    superscripts, subscripts, circled and other digits (Numeric_Type
    Digit), as ranges. *)
Definition other_digit_ranges : list (N * N) :=
  [ (0xb2, 0xb3); (0xb9, 0xb9); (0x1369, 0x1371); (0x19da, 0x19da);
    (0x2070, 0x2070); (0x2074, 0x2079); (0x2080, 0x2089); (0x2460, 0x2468);
    (0x2474, 0x247c); (0x2488, 0x2490); (0x24ea, 0x24ea); (0x24f5, 0x24fd);
    (0x24ff, 0x24ff); (0x2776, 0x277e); (0x2780, 0x2788); (0x278a, 0x2792);
    (0x10a40, 0x10a43); (0x10e60, 0x10e68); (0x11052, 0x1105a);
    (0x1f100, 0x1f10a) ].

(** [Py_UNICODE_ISDIGIT] *)
Definition isdigit (c : codepoint) : bool :=
  isdecimal c || existsb (fun r => in_range (fst r) (snd r) c) other_digit_ranges.

(** [str.isdigit]: at least one character, all of them digits. *)
Definition str_isdigit (s : pystr) : bool :=
  match s with
  | [] => false
  | _ :: _ => forallb isdigit s
  end.

(** [sys.get_int_max_str_digits()], the default. *)
Definition int_max_str_digits : nat := 4300.

(** [int(s)] on a text that [str.isdigit] accepts: every character
    must be a decimal digit, and there must be no more of them than
    the limit; [None] is [ValueError]. *)
Definition int_of_digits (s : pystr) : option N :=
  if Nat.ltb int_max_str_digits (List.length s) then None
  else digits_value 0 s.

End Unicode.

(** ** The fragment of Python's [re] the program uses

    Every pattern of the program, and every pattern [_strptime] builds,
    is compiled with [re.IGNORECASE].  Matching is by backtracking: the
    matcher lists the ways a pattern matches a prefix of the text, in
    the order the engine tries them, and the engine takes the first. *)
Module Re.
Import Unicode.

Inductive cls :=
| Digit                       (* \d *)
| Space                       (* \s *)
| Dot                         (* . without DOTALL *)
| Range (lo hi : codepoint).  (* [lo-hi] *)

Definition cls_mem (k : cls) (c : codepoint) : bool :=
  match k with
  | Digit => isdecimal c
  | Space => isspace c
  | Dot => negb (c =? 10)
  | Range lo hi => in_range lo hi c
  end.

Inductive regex :=
| Eps
| Lit (p : codepoint)
| Class (k : cls)
| Seq (r1 r2 : regex)
| Alt (r1 r2 : regex)
| Plus (k : cls)              (* k+, greedy *)
| LazyPlus (k : cls)          (* k+?, lazy *)
| Group (name : N) (r : regex).

(** A literal under [re.IGNORECASE]: an uncased pattern character is
    compared as it is; for a cased one the lowercase of the text
    character must be the lowercase of the pattern character or one of
    its extra cases. *)
Definition lit_match (p x : codepoint) : bool :=
  if iscased p then
    let lo := tolower p in
    let lx := tolower x in
    (lx =? lo) || existsb (N.eqb lx) (extra_cases lo)
  else x =? p.

Definition captures := list (N * pystr).

(** One way a pattern matches at the start of a text: the groups, the
    matched text and the rest that follows it. *)
Record found := mk_found {
  groups : captures;
  matched : pystr;
  rest : pystr
}.

Definition extend (c : codepoint) (m : found) : found :=
  mk_found (groups m) (c :: matched m) (rest m).

(** [k+], longest run first. *)
Fixpoint greedy (k : cls) (s : pystr) : list found :=
  match s with
  | c :: s' =>
    if cls_mem k c
    then map (extend c) (greedy k s') ++ [mk_found [] [c] s']
    else []
  | [] => []
  end.

(** [k+?], shortest run first. *)
Fixpoint lazy (k : cls) (s : pystr) : list found :=
  match s with
  | c :: s' =>
    if cls_mem k c
    then mk_found [] [c] s' :: map (extend c) (lazy k s')
    else []
  | [] => []
  end.

Fixpoint matches (r : regex) (s : pystr) : list found :=
  match r with
  | Eps => [mk_found [] [] s]
  | Lit p =>
    match s with
    | c :: s' => if lit_match p c then [mk_found [] [c] s'] else []
    | [] => []
    end
  | Class k =>
    match s with
    | c :: s' => if cls_mem k c then [mk_found [] [c] s'] else []
    | [] => []
    end
  | Seq r1 r2 =>
    flat_map (fun m1 =>
                map (fun m2 => mk_found (groups m1 ++ groups m2)
                                        (matched m1 ++ matched m2)
                                        (rest m2))
                    (matches r2 (rest m1)))
             (matches r1 s)
  | Alt r1 r2 => matches r1 s ++ matches r2 s
  | Plus k => greedy k s
  | LazyPlus k => lazy k s
  | Group name r' =>
    map (fun m => mk_found ((name, matched m) :: groups m) (matched m) (rest m))
        (matches r' s)
  end.

(** [pattern.match(s)] *)
Definition re_match (r : regex) (s : pystr) : option found :=
  hd_error (matches r s).

(** [pattern.search(s)]: the match at the leftmost position that has
    one. *)
Fixpoint search (r : regex) (s : pystr) : option found :=
  match re_match r s with
  | Some m => Some m
  | None =>
    match s with
    | [] => None
    | _ :: s' => search r s'
    end
  end.

(** [match.group(name)] *)
Fixpoint group (name : N) (cs : captures) : option pystr :=
  match cs with
  | [] => None
  | (n, v) :: cs' => if n =? name then Some v else group name cs'
  end.

(** A pattern without metacharacters. *)
Fixpoint literal (s : pystr) : regex :=
  match s with
  | [] => Eps
  | c :: s' => Seq (Lit c) (literal s')
  end.

Definition is_some {A} (o : option A) : bool :=
  match o with Some _ => true | None => false end.

End Re.

(** ** [datetime]: construction, [strptime] and [strftime] *)
Module Datetime.
Import Unicode Re.

Record datetime := mk_dt {
  year : N; month : N; day : N; hour : N; minute : N; second : N
}.

Definition is_leap (y : N) : bool :=
  (y mod 4 =? 0) && (negb (y mod 100 =? 0) || (y mod 400 =? 0)).

Definition days_in_month (y m : N) : N :=
  if m =? 2 then (if is_leap y then 29 else 28)
  else if (m =? 4) || (m =? 6) || (m =? 9) || (m =? 11) then 30
  else 31.

(** The checks of the [datetime] constructor ([ValueError] is [None]). *)
Definition valid (y m d hh mm ss : N) : bool :=
  in_range 1 9999 y && in_range 1 12 m && in_range 1 (days_in_month y m) d
  && (hh <=? 23) && (mm <=? 59) && (ss <=? 59).

Definition make (y m d hh mm ss : N) : option datetime :=
  if valid y m d hh mm ss then Some (mk_dt y m d hh mm ss) else None.

(** *** [_strptime.TimeRE]: from format directives to a pattern *)

Definition chr (c : string) : codepoint := hd 0 (py c).

Definition alternation (rs : list regex) : regex :=
  match rs with
  | [] => Eps
  | r :: rs' => fold_left Alt rs' r
  end.

Definition digit1_9 : regex := Class (Range (chr "1") (chr "9")).

(** [LocaleTime] of the C locale, in lower case as the module keeps it. *)
Definition a_weekday : list pystr :=
  map py ["mon"; "tue"; "wed"; "thu"; "fri"; "sat"; "sun"]%string.

Definition a_month : list pystr :=
  map py [""; "jan"; "feb"; "mar"; "apr"; "may"; "jun";
          "jul"; "aug"; "sep"; "oct"; "nov"; "dec"]%string.

Definition am_pm : list pystr := map py ["am"; "pm"]%string.

(** [__seqToRE]: the names as alternatives (they all have one length). *)
Definition seqToRE (names : list pystr) (directive : codepoint) : regex :=
  Group directive (alternation (map literal names)).

Definition directive_re (d : codepoint) : option regex :=
  if d =? chr "d" then
    (* 3[0-1]|[1-2]\d|0[1-9]|[1-9]| [1-9] *)
    Some (Group d (alternation
      [ Seq (Lit (chr "3")) (Class (Range (chr "0") (chr "1")));
        Seq (Class (Range (chr "1") (chr "2"))) (Class Digit);
        Seq (Lit (chr "0")) digit1_9;
        digit1_9;
        Seq (Lit (chr " ")) digit1_9 ]))
  else if (d =? chr "I") || (d =? chr "m") then
    (* 1[0-2]|0[1-9]|[1-9] *)
    Some (Group d (alternation
      [ Seq (Lit (chr "1")) (Class (Range (chr "0") (chr "2")));
        Seq (Lit (chr "0")) digit1_9;
        digit1_9 ]))
  else if d =? chr "M" then
    (* [0-5]\d|\d *)
    Some (Group d (alternation
      [ Seq (Class (Range (chr "0") (chr "5"))) (Class Digit); Class Digit ]))
  else if d =? chr "S" then
    (* 6[0-1]|[0-5]\d|\d *)
    Some (Group d (alternation
      [ Seq (Lit (chr "6")) (Class (Range (chr "0") (chr "1")));
        Seq (Class (Range (chr "0") (chr "5"))) (Class Digit);
        Class Digit ]))
  else if d =? chr "Y" then
    (* \d\d\d\d *)
    Some (Group d (Seq (Class Digit) (Seq (Class Digit) (Seq (Class Digit) (Class Digit)))))
  else if d =? chr "a" then Some (seqToRE a_weekday d)
  else if d =? chr "b" then Some (seqToRE (tl a_month) d)
  else if d =? chr "p" then Some (seqToRE am_pm d)
  else None.

(** [TimeRE.pattern]: a run of whitespace of the format becomes [\s+],
    a directive its pattern, any other character a literal.  A
    directive outside the table is a [ValueError]. *)
Fixpoint pattern_from (in_space : bool) (format : pystr) : option regex :=
  match format with
  | [] => Some Eps
  | c :: rest =>
    if isspace c then
      if in_space then pattern_from true rest
      else option_map (Seq (Plus Space)) (pattern_from true rest)
    else if c =? chr "%" then
      match rest with
      | d :: rest' =>
        match directive_re d, pattern_from false rest' with
        | Some r, Some r' => Some (Seq r r')
        | _, _ => None
        end
      | [] => None
      end
    else option_map (Seq (Lit c)) (pattern_from false rest)
  end.

Definition pattern (format : pystr) : option regex := pattern_from false format.

(** [list.index] *)
Fixpoint index (x : pystr) (l : list pystr) : option N :=
  match l with
  | [] => None
  | y :: l' =>
    if str_eqb x y then Some 0 else option_map N.succ (index x l')
  end.

(** The value of a group through [conv], or [default] without the
    group; [None] is the [ValueError] of the conversion. *)
Definition field (cs : captures) (d : string) (default : N)
           (conv : pystr -> option N) : option N :=
  match group (chr d) cs with
  | Some v => conv v
  | None => Some default
  end.

(** The hour of the 12-hour clock [%I] with the [%p] of the text. *)
Definition hour12 (cs : captures) (v : pystr) : option N :=
  match int v with
  | None => None
  | Some h =>
    let ampm := match group (chr "p") cs with
                | Some p => Unicode.lower p
                | None => []
                end in
    if str_eqb ampm [] || str_eqb ampm (nth 0 am_pm []) then
      Some (if h =? 12 then 0 else h)
    else if str_eqb ampm (nth 1 am_pm []) then
      Some (if h =? 12 then h else h + 12)
    else Some h
  end.

(** [datetime.strptime(data_string, format)] for formats made of the
    directives above, all with a [%Y]; [None] is [ValueError]. *)
Definition strptime (data_string format : pystr) : option datetime :=
  match pattern format with
  | None => None
  | Some format_regex =>
    match re_match format_regex data_string with
    | None => None                         (* does not match format *)
    | Some found =>
      let cs := groups found in
      match rest found with
      | _ :: _ => None                     (* unconverted data remains *)
      | [] =>
      match field cs "Y" 1900 int,
            (match group (chr "b") cs with
             | Some v => index (Unicode.lower v) a_month
             | None => field cs "m" 1 int
             end),
            field cs "d" 1 int,
            field cs "I" 0 (hour12 cs),
            field cs "M" 0 int,
            field cs "S" 0 int,
            field cs "a" 0 (fun v => index (Unicode.lower v) a_weekday)
      with
      | Some y, Some m, Some d, Some hh, Some mm, Some ss, Some _ =>
        make y m d hh mm ss
      | _, _, _, _, _, _, _ => None
      end
      end
    end
  end.

(** *** [strftime] *)

Definition digit (n : N) : codepoint := chr "0" + n mod 10.

(** The decimal digits of [n]; [N.size_nat n], the number of binary
    digits, is enough fuel. *)
Fixpoint decimal_fuel (fuel : nat) (n : N) : pystr :=
  match fuel with
  | O => [digit n]
  | S fuel' =>
    if n <? 10 then [digit n] else decimal_fuel fuel' (n / 10) ++ [digit n]
  end.

Definition decimal (n : N) : pystr := decimal_fuel (N.size_nat n) n.

(** The conversion [%0wd] of C: zeros on the left up to [w] characters. *)
Definition zero_padded (w : nat) (n : N) : pystr :=
  let s := decimal n in
  repeat (chr "0") (w - List.length s) ++ s.

(** [strftime] of CPython 3.11, which hands the format to the C
    library: glibc prints [%m %d %H %M %S] in two digits and [%Y] as
    the plain decimal year, so a year below 1000 has no leading zeros
    (999, not 0999). *)
Fixpoint strftime (format : pystr) (t : datetime) : pystr :=
  match format with
  | [] => []
  | c :: rest =>
    if c =? chr "%" then
      match rest with
      | d :: rest' =>
        (if d =? chr "Y" then decimal (year t)
         else if d =? chr "m" then zero_padded 2 (month t)
         else if d =? chr "d" then zero_padded 2 (day t)
         else if d =? chr "H" then zero_padded 2 (hour t)
         else if d =? chr "M" then zero_padded 2 (minute t)
         else if d =? chr "S" then zero_padded 2 (second t)
         else [c; d]) ++ strftime rest' t
      | [] => [c]
      end
    else c :: strftime rest t
  end.

End Datetime.

(** ** [class LogParser] *)
Module LogParser.
Import Unicode Re Datetime.

Inductive status := OK | FAIL | PENDING | NONE.

(** [r'=== Execução: (.+?) ==='] *)
Definition execution_header_pattern : regex :=
  Seq (literal (py "=== Execução: "))
      (Seq (Group 1 (LazyPlus Dot)) (literal (py " ==="))).

Definition success_patterns : list regex :=
  [ literal (py "Data da última atualização inserida na tabela de controle (sucesso)");
    Seq (literal (py "Linhas afetadas: ")) (Plus Digit);
    literal (py "Nova linha inserida na tabela CONTROL com sucesso");
    literal (py "Conexão aberta com sucesso");
    literal (py "Finalizado sem erros");
    literal (py "concluída com sucesso");
    literal (py "processados com sucesso") ].

Definition failure_patterns : list regex :=
  [ literal (py "Erro:");
    literal (py "Falha:");
    literal (py "Exception:");
    literal (py "Error:");
    literal (py "Timeout");
    literal (py "falhou");
    literal (py "erro") ].

Definition pending_patterns : list regex :=
  [ literal (py "Processamento iniciado");
    literal (py "Iniciando");
    literal (py "Aguardando");
    literal (py "Processando") ].

Definition canonical_format : pystr := py "%Y-%m-%d %H:%M:%S".

(** The two formats [parse_execution_date] tries, in this order. *)
Definition grammar1 : pystr := py "%a %b %d %I:%M:%S %p %Y".

Definition grammar2 : pystr := py "%m/%d/%Y %I:%M:%S %p".

(** [parse_execution_date]: the date of the execution header. *)
Definition parse_execution_date (log_content : pystr) : option pystr :=
  match search execution_header_pattern log_content with
  | Some found =>
    match group 1 (groups found) with
    | Some g =>
      let date_str := strip g in
      let date_str_clean := replace (py " -03") [] date_str in
      match strptime date_str_clean grammar1 with
      | Some parsed_date => Some (strftime canonical_format parsed_date)
      | None =>
        match strptime date_str grammar2 with
        | Some parsed_date => Some (strftime canonical_format parsed_date)
        | None => None
        end
      end
    | None => None
    end
  | None => None
  end.

(** [for pattern in patterns: if re.search(pattern, text, re.IGNORECASE)] *)
Fixpoint any_search (patterns : list regex) (text : pystr) : bool :=
  match patterns with
  | [] => false
  | pattern :: rest =>
    if is_some (search pattern text) then true else any_search rest text
  end.

(** [determine_status] *)
Definition determine_status (log_content : pystr) : status :=
  let log_lower := Unicode.lower log_content in
  if any_search success_patterns log_content then OK
  else if any_search failure_patterns log_content then FAIL
  else if any_search pending_patterns log_content then PENDING
  else if negb (contains (py "erro") log_lower)
          && negb (contains (py "error") log_lower) then OK
  else FAIL.

(** The test of the loop of [extract_key_info] on a stripped line. *)
Definition significant (line : pystr) : bool :=
  negb (Nat.eqb (List.length line) 0)
  && negb (startswith (py "===") line)
  && negb (startswith (py "lsfnjdn") line).

(** [line[:100] + "..." if len(line) > 100 else line] *)
Definition summary (line : pystr) : pystr :=
  if Nat.ltb 100 (List.length line) then firstn 100 line ++ py "..." else line.

(** The loop over the lines of [extract_key_info]. *)
Fixpoint first_message (lines : list pystr) : option pystr :=
  match lines with
  | [] => None
  | raw :: rest =>
    let line := strip raw in
    if significant line then
      if Nat.ltb 10 (List.length line) then Some (summary line)
      else first_message rest
    else first_message rest
  end.

(** The dictionary [extract_key_info] returns: ['status'] is always
    there, ['execution_date'] and ['message'] may be missing. *)
Record info := mk_info {
  execution_date : option pystr;
  info_status : status;
  message : option pystr
}.

Definition extract_key_info (log_content : pystr) : info :=
  mk_info (match parse_execution_date log_content with
           | Some ((_ :: _) as exec_date) => Some exec_date  (* if exec_date: *)
           | _ => None
           end)
          (determine_status log_content)
          (first_message (split 10 log_content)).

End LogParser.

(** ** [class AutomationCLI]: the SQLite store and its writers *)
Module AutomationCLI.
Import Unicode LogParser.

(** A row of table [automations] (primary key [name]). *)
Record automation := mk_automation {
  name : pystr;
  schedule : pystr;
  behavior : pystr;
  last_status : status;
  last_run : option pystr
}.

(** A row of table [logs]; the rows are kept in the order of their
    AUTOINCREMENT [id]. *)
Record log_row := mk_log {
  log_automation : pystr;
  timestamp : pystr;
  log_status : status;
  log_message : pystr
}.

Record store := mk_store {
  automations : list automation;
  logs : list log_row
}.

(** [SELECT name FROM automations WHERE name = ?] with [fetchone] *)
Definition select_name (n : pystr) (db : store) : option pystr :=
  option_map name (find (fun a => str_eqb (name a) n) (automations db)).

(** [INSERT OR REPLACE INTO automations] *)
Definition insert_or_replace (row : automation) (db : store) : store :=
  mk_store
    (filter (fun a => negb (str_eqb (name a) (name row))) (automations db)
       ++ [row])
    (logs db).

(** [INSERT INTO logs] *)
Definition insert_log (row : log_row) (db : store) : store :=
  mk_store (automations db) (logs db ++ [row]).

(** [UPDATE automations SET last_status = ?, last_run = ? WHERE name = ?] *)
Definition update_last (st : status) (ts n : pystr) (db : store) : store :=
  mk_store
    (map (fun a =>
            if str_eqb (name a) n
            then mk_automation (name a) (schedule a) (behavior a) st (Some ts)
            else a)
         (automations db))
    (logs db).

(** [... WHERE name = ? AND (last_run IS NULL OR last_run < ?)] *)
Definition newer (ts : pystr) (a : automation) : bool :=
  match last_run a with
  | None => true
  | Some r => str_ltb r ts
  end.

Definition update_last_if_newer (st : status) (ts n : pystr) (db : store)
  : store :=
  mk_store
    (map (fun a =>
            if str_eqb (name a) n && newer ts a
            then mk_automation (name a) (schedule a) (behavior a) st (Some ts)
            else a)
         (automations db))
    (logs db).

(** What [add_real_log] has to say when it is done: the texts it hands
    to [console.print] are made from it ([Rich.add_real_log_prints]),
    and [console.print] can raise on them ([Rich.markup_error]). *)
Inductive report :=
| NotFound (automation_name : pystr)
| Processed (ts : pystr) (st : status) (msg : pystr).

(** [add_real_log]: the store it leaves (it commits before it prints)
    and its report; [now] is [datetime.now()] in the canonical format. *)
Definition add_real_log (now automation_name log_content : pystr) (db : store)
  : store * report :=
  match select_name automation_name db with
  | None => (db, NotFound automation_name)
  | Some _ =>
    let info := extract_key_info log_content in
    let ts := match execution_date info with Some d => d | None => now end in
    let st := info_status info in
    let msg := match message info with
               | Some m => m
               | None => py "Log processado automaticamente"
               end in
    let db1 := insert_log (mk_log automation_name ts st msg) db in
    let db2 := update_last st ts automation_name db1 in
    (db2, Processed ts st msg)
  end.

Definition mock_automations : list (string * string * string) :=
  [ ("C1", "0 8 * * *", "Import de Vendas - Execução diária");
    ("CAT1", "0 8 * * *", "Categorização - Execução diária");
    ("NC1", "0 8 * * *", "Notas de Crédito - Execução diária");
    ("PG1", "0 8 * * *", "Pagamentos - Execução diária");
    ("PR2", "0 8 * * *", "Processamento de Pedidos 2 - Execução diária");
    ("CR1", "0 8-17 * * *", "Controle de Receitas - A cada hora");
    ("NF1", "0 8-17 * * *", "Notas Fiscais 1 - A cada hora");
    ("NF2", "0 8-17 * * *", "Notas Fiscais 2 - A cada hora");
    ("P1", "0 8-17 * * *", "Produtos 1 - A cada hora");
    ("P2", "0 8-17 * * *", "Produtos 2 - A cada hora");
    ("EM1", "0 8,11,14,17 * * *", "Estoque e Movimentação - A cada 1h30");
    ("EM1", "30 9,12,15 * * *", "Estoque e Movimentação - A cada 1h30");
    ("ODC1", "0 8,10,12,14,16 * * *", "Ordens de Compra 1 - A cada 2h");
    ("ODC2", "0 8,10,12,14,16 * * *", "Ordens de Compra 2 - A cada 2h");
    ("ORC1", "0 8,10,12,14,16 * * *", "Ordens de Recebimento - A cada 2h");
    ("PR1", "0 8,10,12,14,16 * * *", "Processamento de Pedidos 1 - A cada 2h");
    ("V1", "0 9 * * *", "Validação - Execução diária") ]%string.

Definition mock_logs : list (string * string * status * string) :=
  [ ("C1", "2025-08-29 08:00:00", OK,
     "Import de vendas concluído. 156 registros processados");
    ("C1", "2025-08-28 08:00:00", OK,
     "Import de vendas concluído. 142 registros processados");
    ("CAT1", "2025-08-29 08:00:00", OK,
     "Categorização concluída. 89 produtos categorizados");
    ("CR1", "2025-08-29 10:00:01", OK,
     "Conta inserida/atualizada com sucesso na tabela CR1!");
    ("CR1", "2025-08-29 09:00:01", OK,
     "Conta inserida/atualizada com sucesso na tabela CR1!");
    ("CR1", "2025-08-29 08:00:01", OK,
     "Conta inserida/atualizada com sucesso na tabela CR1!");
    ("NF1", "2025-08-29 10:00:00", OK,
     "15 notas fiscais processadas com sucesso");
    ("NF1", "2025-08-29 09:00:00", OK,
     "12 notas fiscais processadas com sucesso");
    ("NF2", "2025-08-29 10:00:00", OK,
     "8 notas fiscais processadas com sucesso");
    ("NF2", "2025-08-29 09:00:00", FAIL,
     "Erro: Falha na validação de dados");
    ("EM1", "2025-08-29 09:30:00", OK,
     "Movimentação de estoque concluída. 45 itens atualizados");
    ("EM1", "2025-08-29 08:00:00", OK,
     "Movimentação de estoque concluída. 38 itens atualizados");
    ("ODC1", "2025-08-29 10:00:00", OK,
     "Ordens de compra processadas. 12 ordens criadas");
    ("ODC1", "2025-08-29 08:00:00", OK,
     "Ordens de compra processadas. 8 ordens criadas");
    ("V1", "2025-08-29 09:00:00", OK,
     "Validação concluída. 0 inconsistências encontradas") ]%string.

(** [seed_mock_data]: the automations, then the logs, then one guarded
    update of the automation per log. *)
Definition seed_mock_data (db : store) : store :=
  let db1 :=
    fold_left (fun d '(n, s, b) =>
                 insert_or_replace (mk_automation (py n) (py s) (py b) NONE None) d)
              mock_automations db in
  let db2 :=
    fold_left (fun d '(n, ts, st, msg) =>
                 insert_log (mk_log (py n) (py ts) st (py msg)) d)
              mock_logs db1 in
  fold_left (fun d '(n, ts, st, _) => update_last_if_newer st (py ts) (py n) d)
            mock_logs db2.

(** The tables [init_database] creates. *)
Definition empty_store : store := mk_store [] [].

Definition find_automation (n : pystr) (db : store) : option automation :=
  find (fun a => str_eqb (name a) n) (automations db).

(** What [force_execution] has to say when it is done; the texts it
    hands to [console.print] are [Rich.force_execution_prints]. *)
Inductive force_report :=
| ForceNotFound (automation_name : pystr)
| Executed (st : status) (msg : pystr).

(** The scenario [force_execution] simulates for a name. *)
Definition scenario (now automation_name : pystr) : status * pystr :=
  if contains (py "C1") automation_name then
    (OK, py "Processando dados... Inseridos 145 registros. Finalizado sem erros")
  else if contains (py "C2") automation_name then
    (OK, py "Sincronização concluída. 67 produtos atualizados")
  else if contains (py "C3") automation_name then
    (PENDING, py "Processamento iniciado... Aguardando recursos")
  else
    (OK, py "Execução forçada concluída com sucesso em " ++ now).

(** [force_execution]: the store it leaves (it commits before it
    prints) and its report; [now] is [datetime.now()] in the canonical
    format. *)
Definition force_execution (now automation_name : pystr) (db : store)
  : store * force_report :=
  match select_name automation_name db with
  | None => (db, ForceNotFound automation_name)
  | Some _ =>
    let ts := now in
    let st := fst (scenario now automation_name) in
    let msg := snd (scenario now automation_name) in
    let db1 := insert_log (mk_log automation_name ts st msg) db in
    let db2 := update_last st ts automation_name db1 in
    (db2, Executed st msg)
  end.

(** A text of several lines, as a triple-quoted literal has it. *)
Fixpoint lines_text (lines : list pystr) : pystr :=
  match lines with
  | [] => []
  | [l] => l
  | l :: rest => l ++ 10 :: lines_text rest
  end.

(** The log of C1 that [run] passes to [test_log_parsing] and to
    [add_real_log]. *)
Definition test_log : pystr :=
  lines_text
    [ py "=== Execução: Wed Aug 20 09:23:03 AM -03 2025 ===";
      py "lsfnjdn5/3/2024 9:28:21 AM";
      py "lsfnjdnData Source=dadosjcdecor.database.windows.net;User ID=jcdados;Password=BandodeDados2024$;Initial Catalog=DadosJC>8/20/2025 9:23:06 AM - Conexão com o banco de dados estabelecida.";
      py "8/20/2025 9:23:06 AM - Obtendo pedidos da API...";
      py "IdCliente: 37997466";
      py "DataCadCliente: 8/18/2025 2:13:21 PM";
      py "DataModCliente: 8/18/2025 5:40:10 PM";
      py "Inserindo nova linha na tabela CONTROL...";
      py "Conexão aberta com sucesso.";
      py "Linhas afetadas: 1";
      py "Nova linha inserida na tabela CONTROL com sucesso.";
      py "8/20/2025 9:27:41 AM - Data da última atualização inserida na tabela de controle (sucesso)." ].

(** The [choices] of the positional argument [command]. *)
Inductive command := Status | Force | Tail | TestLog | AddLog.

(** The namespace [parse_args] returns; an optional positional that
    is not given is [None]. *)
Record args := mk_args {
  arg_command : command;
  automation_name : option pystr;
  date_or_lines : option pystr
}.

(** What [run] does with the arguments, up to the method it calls:
    that method and its arguments, or the message that a name is
    required (with the help text or not).  What the method called does,
    and what it raises, is not part of [run] here. *)
Inductive action :=
| ShowAllStatus
| ShowAutomationHistory (automation_name : pystr) (date_filter : option pystr)
| ForceExecution (automation_name : pystr)
| TailLogs (automation_name : pystr) (lines : N)
| TestLogParsing (log_content : pystr)
| AddRealLog (automation_name log_content : pystr)
| NameRequired (print_help : bool).

(** The truth value of an optional argument: [None] and the empty
    text are false. *)
Definition given (o : option pystr) : bool :=
  match o with
  | Some (_ :: _) => true
  | _ => false
  end.

Definition text_of (o : option pystr) : pystr :=
  match o with
  | Some s => s
  | None => []
  end.

(** [int(d) if d and d.isdigit() else 10]; [None] is the [ValueError]
    of [int]. *)
Definition tail_lines (d : option pystr) : option N :=
  if given d && str_isdigit (text_of d) then int_of_digits (text_of d)
  else Some 10.

(** [run], after [parse_args] and up to the call of a method; [None]
    is the [ValueError] of [int], raised before any method is
    called. *)
Definition run (a : args) : option action :=
  let name := automation_name a in
  if (match arg_command a with Force | Tail => true | _ => false end)
     && negb (given name)
  then Some (NameRequired true)
  else
    match arg_command a with
    | Status =>
      if negb (given name) then Some ShowAllStatus
      else Some (ShowAutomationHistory (text_of name) (date_or_lines a))
    | Force => Some (ForceExecution (text_of name))
    | Tail => option_map (TailLogs (text_of name)) (tail_lines (date_or_lines a))
    | TestLog => Some (TestLogParsing test_log)
    | AddLog =>
      if negb (given name) then Some (NameRequired false)
      else Some (AddRealLog (text_of name) test_log)
    end.

End AutomationCLI.

(** ** [rich]: console markup

    [console.print] parses its text as console markup
    ([rich.markup.render], rich 13.7) and raises [MarkupError] on a
    closing tag that closes nothing.  What is modelled is whether it
    raises. *)
Module Rich.
Import Unicode Datetime LogParser AutomationCLI.

(** [rich.markup.Tag] *)
Record tag := mk_tag {
  tag_name : pystr;
  tag_parameters : option pystr
}.

(** The rest of a tag, up to its closing bracket: [[^[]*?]] of
    [RE_TAGS]. *)
Fixpoint tag_rest (s : pystr) : option pystr :=
  match s with
  | [] => None
  | c :: s' =>
    if c =? chr "]" then Some []
    else if c =? chr "[" then None
    else option_map (cons c) (tag_rest s')
  end.

(** [RE_TAGS] after an opening bracket, [([a-z#/@][^[]*?)]]: the text
    of the tag. *)
Definition tag_at (s : pystr) : option pystr :=
  match s with
  | c :: s' =>
    if in_range (chr "a") (chr "z") c || (c =? chr "#") || (c =? chr "/")
       || (c =? chr "@")
    then option_map (cons c) (tag_rest s')
    else None
  | [] => None
  end.

(** [_parse]: the texts of the tags [RE_TAGS.finditer] finds, without
    those that an odd number of backslashes escapes.  [k] is the
    number of backslashes just before the character at hand, [skip]
    the number of characters of the last tag still to pass. *)
Fixpoint tags (k skip : nat) (s : pystr) : list pystr :=
  match s with
  | [] => []
  | c :: s' =>
    match skip with
    | S skip' => tags 0 skip' s'
    | O =>
      if c =? 92 then tags (S k) 0 s'
      else if c =? chr "[" then
        match tag_at s' with
        | Some text =>
          (if Nat.even k then [text] else [])
            ++ tags 0 (S (List.length text)) s'
        | None => tags 0 0 s'
        end
      else tags 0 0 s'
    end
  end.

(** [tag_text.partition("=")]: the name and the parameters. *)
Fixpoint partition_eq (s : pystr) : pystr * option pystr :=
  match s with
  | [] => ([], None)
  | c :: s' =>
    if c =? chr "=" then ([], Some s')
    else let (name, parameters) := partition_eq s' in (c :: name, parameters)
  end.

Section Render.

(** [Style.normalize], and whether the handler of an [@] tag with the
    given parameters is read without an error. *)
Variable normalize : pystr -> pystr.
Variable meta_ok : pystr -> bool.

(** [pop_style]: the last tag opened with that name leaves the stack
    (its top is the head of the list). *)
Fixpoint pop_style (style_name : pystr) (stack : list tag)
  : option (tag * list tag) :=
  match stack with
  | [] => None
  | t :: below =>
    if str_eqb (tag_name t) style_name then Some (t, below)
    else match pop_style style_name below with
         | Some (found, below') => Some (found, t :: below')
         | None => None
         end
  end.

(** After a tag is closed: the parameters of an [@] tag are read. *)
Definition closed_ok (open_tag : tag) : bool :=
  if startswith (py "@") (tag_name open_tag) then
    match tag_parameters open_tag with
    | Some (c :: ps) => meta_ok (c :: ps)
    | _ => true
    end
  else true.

(** The loop of [render] over the tags; [true] is [MarkupError]. *)
Fixpoint render_raises (ts : list pystr) (stack : list tag) : bool :=
  match ts with
  | [] => false
  | text :: rest =>
    let (name, parameters) := partition_eq text in
    if startswith (py "/") name then
      match (match strip (tl name) with
             | [] =>                         (* implicit close *)
               match stack with
               | t :: below => Some (t, below)
               | [] => None
               end
             | style_name => pop_style (normalize style_name) stack
             end) with
      | None => true
      | Some (open_tag, stack') =>
        if closed_ok open_tag then render_raises rest stack' else true
      end
    else render_raises rest (mk_tag (normalize name) parameters :: stack)
  end.

(** [console.print(markup)] raises [MarkupError]. *)
Definition markup_error (markup : pystr) : bool :=
  if contains (py "[") markup then render_raises (tags 0 0 markup) []
  else false.

End Render.

(** [get_status_color] *)
Definition get_status_color (st : status) : pystr :=
  match st with
  | OK => py "green"
  | FAIL => py "red"
  | PENDING => py "yellow"
  | NONE => py "white"
  end.

Definition status_text (st : status) : pystr :=
  match st with
  | OK => py "OK"
  | FAIL => py "FAIL"
  | PENDING => py "PENDING"
  | NONE => py "NONE"
  end.

(** The message of [add_real_log] and of [force_execution] for a name
    that is not in the table. *)
Definition not_found_markup (automation_name : pystr) : pystr :=
  py "[red]✗[/red] Automação '" ++ automation_name ++ py "' não encontrada".

Definition status_markup (st : status) : pystr :=
  py "[" ++ get_status_color st ++ py "]" ++ status_text st
     ++ py "[/" ++ get_status_color st ++ py "]".

(** The texts [add_real_log] hands to [console.print], in order. *)
Definition add_real_log_prints (automation_name : pystr) (r : report)
  : list pystr :=
  match r with
  | NotFound n => [not_found_markup n]
  | Processed ts st msg =>
    [ py "[green]✓[/green] Log processado para '" ++ automation_name ++ py "':";
      py "  📅 Data: " ++ ts;
      py "  📊 Status: " ++ status_markup st;
      py "  💬 Mensagem: " ++ msg ]
  end.

(** The texts [force_execution] hands to [console.print], in order. *)
Definition force_execution_prints (automation_name : pystr) (r : force_report)
  : list pystr :=
  match r with
  | ForceNotFound n => [not_found_markup n]
  | Executed st msg =>
    [ py "[green]✓[/green] Automação '" ++ automation_name
         ++ py "' executada com status: " ++ status_markup st;
      py "[white]Mensagem: " ++ msg ++ py "[/white]" ]
  end.

(** A text the bind of a parameter can encode: no surrogate in it
    ([sqlite3] raises [UnicodeEncodeError] on the others). *)
Definition encodable (s : pystr) : bool :=
  forallb (fun c => (c <? 0xD800) || ((0xDFFF <? c) && (c <? 0x110000))) s.

End Rich.

(** ** The vocabulary of the properties *)
Module Spec.
Import Unicode Re Datetime LogParser AutomationCLI.

(** A marker of the table appears somewhere in the text. *)
Definition marker_found (table : list regex) (t : pystr) : Prop :=
  exists p, In p table /\ is_some (search p t) = true.

(** [needle] occurs in [s]. *)
Definition occurs (needle s : pystr) : Prop :=
  exists pre post, s = pre ++ needle ++ post.

(** The text has the word for an error of one of the two languages,
    in any case. *)
Definition mentions_error (t : pystr) : Prop :=
  occurs (py "erro") (Unicode.lower t) \/ occurs (py "error") (Unicode.lower t).

Definition ascii_digit (c : codepoint) : bool := in_range 48 57 c.

(** [w] characters, all of them digits 0-9. *)
Definition all_digits (w : nat) (s : pystr) : bool :=
  Nat.eqb (List.length s) w && forallb ascii_digit s.

(** [YYYY-MM-DD HH:MM:SS] *)
Definition canonical (s : pystr) : bool :=
  match s with
  | [y1; y2; y3; y4; s1; m1; m2; s2; d1; d2; s3; h1; h2; s4; n1; n2; s5; c1; c2] =>
    forallb ascii_digit [y1; y2; y3; y4; m1; m2; d1; d2; h1; h2; n1; n2; c1; c2]
    && (s1 =? chr "-") && (s2 =? chr "-") && (s3 =? chr " ")
    && (s4 =? chr ":") && (s5 =? chr ":")
  | _ => false
  end.

(** A line, once trimmed, that the message extractor accepts: not
    empty, no [===] decoration, no noise prefix, more than 10
    characters. *)
Definition qualifies (line : pystr) : bool :=
  match line with [] => false | _ :: _ => true end
  && negb (startswith (py "===") line)
  && negb (startswith (py "lsfnjdn") line)
  && Nat.ltb 10 (List.length line).

(** A cased character that is its own lowercase, other than [i] (the
    lowercase of the dotted capital I is [i] and a combining dot). *)
Definition plain_lowercase (p : codepoint) : Prop :=
  iscased p = true /\ tolower p = p /\ p <> 0x69.

(** The run time [new] is not before the run time [old] ([None] is
    the NULL of a job that never ran). *)
Definition not_before (old new : option pystr) : Prop :=
  match old, new with
  | None, _ => True
  | Some _, None => False
  | Some o, Some n => str_ltb n o = false
  end.

Definition newline : pystr := [10].

(** No match of the pattern starts in [pre] when [rest] follows it:
    the first match in [pre ++ rest], if there is one, starts in
    [rest]. *)
Fixpoint starts_first (r : regex) (pre rest : pystr) : bool :=
  match pre with
  | [] => true
  | _ :: pre' =>
    negb (is_some (re_match r (pre ++ rest))) && starts_first r pre' rest
  end.

(** The header and the dates of the examples of the specification. *)
Definition header_am : pystr :=
  py "=== Execução: Wed Aug 20 09:23:03 AM -03 2025 ===".

Definition header_0999 : pystr :=
  py "=== Execução: Wed Aug 20 09:23:03 AM -03 0999 ===".

Definition slash_date : pystr := py "8/20/2025 9:23:06 AM".

Definition header_slash : pystr := py "=== Execução: 8/20/2025 9:23:06 AM ===".

(** The names of the jobs [seed_mock_data] registers. *)
Definition mock_name (n : pystr) : bool :=
  existsb (fun row => str_eqb n (py (fst (fst row)))) mock_automations.

(** ASCII letters in upper case, every other character as it is. *)
Definition ascii_upper (c : codepoint) : codepoint :=
  if in_range 0x61 0x7a c then c - 32 else c.

Definition upper_text (s : pystr) : pystr := map ascii_upper s.

Definition upper_found (m : found) : found :=
  mk_found (map (fun g => (fst g, upper_text (snd g))) (groups m))
           (upper_text (matched m)) (upper_text (rest m)).

(** A pattern without a character range. *)
Fixpoint rangeless (r : regex) : bool :=
  match r with
  | Eps | Lit _ => true
  | Class k | Plus k | LazyPlus k =>
    match k with Range _ _ => false | _ => true end
  | Seq r1 r2 | Alt r1 r2 => rangeless r1 && rangeless r2
  | Group _ r' => rangeless r'
  end.

(** The three tables of [determine_status], without the test on the
    words "erro" and "error". *)
Definition status_by_tables (found_success found_failure found_pending : bool)
  : status :=
  if found_success then OK
  else if found_failure then FAIL
  else if found_pending then PENDING
  else OK.

End Spec.

(** * Properties *)

Import Unicode Re Datetime LogParser AutomationCLI Rich Spec.

(** ** Strings *)

Lemma startswith_app (pre s : pystr) :
  startswith pre s = true <-> exists post, s = pre ++ post.
Proof.
  revert s; induction pre as [|p pre IH]; intros s; simpl.
  - split; [intros _; now exists s | reflexivity].
  - destruct s as [|c s].
    + split; [discriminate | intros [post H]; discriminate].
    + rewrite andb_true_iff, N.eqb_eq, IH. split.
      * intros [-> [post ->]]. now exists post.
      * intros [post H]. injection H as -> ->. split; [reflexivity | now exists post].
Qed.

Lemma contains_occurs (needle s : pystr) :
  contains needle s = true <-> occurs needle s.
Proof.
  unfold occurs. induction s as [|c s IH].
  - simpl. rewrite orb_false_r, startswith_app. split.
    + intros [post H]. exists [], post. exact H.
    + intros [pre [post H]]. destruct pre as [|x pre]; [now exists post|discriminate].
  - cbn [contains]. rewrite orb_true_iff, startswith_app, IH. split.
    + intros [[post H] | [pre [post H]]].
      * exists [], post. exact H.
      * exists (c :: pre), post. simpl. now rewrite H.
    + intros [pre [post H]]. destruct pre as [|x pre].
      * left. now exists post.
      * right. injection H as _ H. now exists pre, post.
Qed.

Lemma contains_false_not_occurs (needle s : pystr) :
  contains needle s = false <-> ~ occurs needle s.
Proof.
  rewrite <- contains_occurs. destruct (contains needle s); split; intros H;
    try reflexivity; try discriminate; try (intros H'; discriminate).
  exfalso; now apply H.
Qed.

Lemma occurs_longer (a b s : pystr) : occurs (a ++ b) s -> occurs a s.
Proof.
  intros [pre [post ->]]. exists pre, (b ++ post). now rewrite <- app_assoc.
Qed.

(** ** The tables of markers *)

Lemma any_search_found (table : list regex) (t : pystr) :
  any_search table t = true <-> marker_found table t.
Proof.
  unfold marker_found. induction table as [|p table IH]; simpl.
  - split; [discriminate | intros [p [[] _]]].
  - destruct (is_some (search p t)) eqn:E.
    + split; [intros _; exists p; auto | reflexivity].
    + rewrite IH. split.
      * intros [q [Hq Hs]]. exists q; auto.
      * intros [q [[<- | Hq] Hs]]; [congruence | exists q; auto].
Qed.

Lemma any_search_not_found (table : list regex) (t : pystr) :
  any_search table t = false <-> ~ marker_found table t.
Proof.
  rewrite <- any_search_found. destruct (any_search table t); split; intros H;
    try reflexivity; try discriminate; try (intros H'; discriminate).
  exfalso; now apply H.
Qed.

(** ** Searching for a literal *)

Lemma lit_match_refl (p : codepoint) : lit_match p p = true.
Proof.
  unfold lit_match. destruct (iscased p); [|apply N.eqb_refl].
  now rewrite N.eqb_refl.
Qed.

Lemma lit_match_lower (p x : codepoint) :
  iscased p = true -> tolower x = tolower p -> lit_match p x = true.
Proof.
  intros Hp Hx. unfold lit_match. rewrite Hp. cbv zeta.
  now rewrite Hx, N.eqb_refl.
Qed.

Lemma matches_literal_cons (p c : codepoint) (m s : pystr) :
  lit_match p c = true -> matches (literal m) s <> [] ->
  matches (literal (p :: m)) (c :: s) <> [].
Proof.
  intros Hp Hm. cbn [literal matches]. rewrite Hp. cbn [flat_map rest].
  rewrite app_nil_r. destruct (matches (literal m) s); [contradiction|].
  discriminate.
Qed.

Lemma matches_literal_self (m post : pystr) :
  matches (literal m) (m ++ post) <> [].
Proof.
  induction m as [|p m IH]; [discriminate|].
  apply matches_literal_cons; [apply lit_match_refl | exact IH].
Qed.

Lemma search_here (r : regex) (s : pystr) :
  matches r s <> [] -> is_some (search r s) = true.
Proof.
  intros H. destruct s; simpl; unfold re_match;
    destruct (matches r _); try contradiction; reflexivity.
Qed.

Lemma search_later (r : regex) (c : codepoint) (s : pystr) :
  is_some (search r s) = true -> is_some (search r (c :: s)) = true.
Proof.
  intros H. cbn [search]. now destruct (re_match r (c :: s)).
Qed.

Lemma search_after (r : regex) (pre s : pystr) :
  is_some (search r s) = true -> is_some (search r (pre ++ s)) = true.
Proof.
  intros H. induction pre as [|c pre IH]; [exact H|].
  now apply search_later.
Qed.

(** A marker without metacharacters that occurs in the text is found. *)
Lemma literal_occurs_found (m t : pystr) :
  occurs m t -> is_some (search (literal m) t) = true.
Proof.
  intros [pre [post ->]]. apply search_after, search_here, matches_literal_self.
Qed.

(** ** [str.lower] against [re.IGNORECASE] *)

Lemma lower_cons (c : codepoint) (s : pystr) :
  Unicode.lower (c :: s) = lower_full c ++ Unicode.lower s.
Proof. reflexivity. Qed.

Lemma lower_head (x : codepoint) (needle s : pystr) :
  x <> 0x69 ->
  startswith (x :: needle) (Unicode.lower s) = true ->
  exists c s', s = c :: s' /\ tolower c = x
               /\ startswith needle (Unicode.lower s') = true.
Proof.
  intros Hx H. destruct s as [|c s]; [discriminate|].
  rewrite lower_cons in H. unfold lower_full in H.
  destruct (c =? 0x130) eqn:E.
  - cbn [app startswith] in H. apply andb_true_iff in H as [H _].
    apply N.eqb_eq in H. contradiction.
  - cbn [app startswith] in H. apply andb_true_iff in H as [H1 H2].
    apply N.eqb_eq in H1. exists c, s. auto.
Qed.

Lemma matches_literal_lower (m : pystr) :
  Forall plain_lowercase m ->
  forall s, startswith m (Unicode.lower s) = true -> matches (literal m) s <> [].
Proof.
  induction 1 as [|p m [Hc [Hl Hi]] Hm IH]; intros s Hs; [discriminate|].
  destruct (lower_head p m s Hi Hs) as [c [s' [-> [Hp Hs']]]].
  apply matches_literal_cons; [|now apply IH].
  apply lit_match_lower; [exact Hc | congruence].
Qed.

(** A word of plain lowercase letters that is in [text.lower()] is
    found in [text] by the case-insensitive search for it. *)
Lemma lower_contains_found (m : pystr) :
  Forall plain_lowercase m ->
  forall t, contains m (Unicode.lower t) = true ->
            is_some (search (literal m) t) = true.
Proof.
  intros Hm t. induction t as [|c t IH]; intros H.
  - apply search_here, (matches_literal_lower m Hm).
    simpl in H. now rewrite orb_false_r in H.
  - assert (Hcases : startswith m (Unicode.lower (c :: t)) = true
                     \/ contains m (Unicode.lower t) = true).
    { rewrite lower_cons in *. unfold lower_full in *.
      destruct (c =? 0x130).
      - cbn [app contains] in H.
        apply orb_true_iff in H as [H | H]; [now left|].
        apply orb_true_iff in H as [H | H]; [|now right].
        left. destruct Hm as [|p m [Hc _] _]; [reflexivity|].
        cbn [startswith] in H. apply andb_true_iff in H as [H _].
        apply N.eqb_eq in H. subst p. discriminate.
      - cbn [app contains] in H.
        apply orb_true_iff in H as [H | H]; [now left | now right]. }
    destruct Hcases as [Hh | Ht].
    + apply search_here, (matches_literal_lower m Hm _ Hh).
    + apply search_later, IH, Ht.
Qed.

Lemma erro_plain_lowercase : Forall plain_lowercase (py "erro").
Proof.
  repeat constructor; try reflexivity; discriminate.
Qed.

Lemma erro_in_failure_patterns : In (literal (py "erro")) failure_patterns.
Proof. unfold failure_patterns. simpl. tauto. Qed.

(** Whatever has "erro" or "error" in its lowercase has a failure
    marker: the last pattern of the table. *)
Lemma mentions_error_failure_marker (t : pystr) :
  mentions_error t -> marker_found failure_patterns t.
Proof.
  intros H. exists (literal (py "erro")). split; [apply erro_in_failure_patterns|].
  apply lower_contains_found; [apply erro_plain_lowercase|].
  apply contains_occurs. destruct H as [H | H]; [exact H|].
  apply (occurs_longer (py "erro") [114]). exact H.
Qed.

(** ** The status classifier *)

Ltac status_cases :=
  unfold determine_status;
  repeat match goal with
         | |- context [if ?b then _ else _] => destruct b eqn:?
         end.

(** C1. A text in which a success marker appears anywhere has status
    OK, whatever else (a failure marker, a pending marker) appears in
    it: the success table is searched first and the first match
    decides. *)
Theorem success_precedence (t : pystr) (Hs : marker_found success_patterns t) :
  determine_status t = OK.
Proof.
  apply any_search_found in Hs. unfold determine_status. now rewrite Hs.
Qed.

Lemma success_precedence_witness :
  marker_found failure_patterns
    (py "Finalizado sem erros" ++ newline ++ py "Error: timeout")
  /\ determine_status
       (py "Finalizado sem erros" ++ newline ++ py "Error: timeout") = OK.
Proof.
  split.
  - exists (literal (py "Error:")). split; [simpl; tauto | reflexivity].
  - apply success_precedence.
    exists (literal (py "Finalizado sem erros")).
    split; [simpl; tauto | reflexivity].
Defined.

(** C2. The classifier is total: every text has exactly one status,
    and it is OK, FAIL or PENDING (never the NONE of the store). *)
Theorem determine_status_total (t : pystr) :
  determine_status t = OK \/ determine_status t = FAIL
  \/ determine_status t = PENDING.
Proof.
  status_cases; auto.
Qed.

(** Past the three tables, the status is decided by the two words. *)
Lemma determine_status_unmarked (t : pystr) :
  ~ marker_found success_patterns t ->
  ~ marker_found failure_patterns t ->
  ~ marker_found pending_patterns t ->
  determine_status t =
  if negb (contains (py "erro") (Unicode.lower t))
     && negb (contains (py "error") (Unicode.lower t))
  then OK else FAIL.
Proof.
  intros Hs Hf Hp. apply any_search_not_found in Hs, Hf, Hp.
  unfold determine_status. now rewrite Hs, Hf, Hp.
Qed.

(** C3. Default fallback: a text with no success, failure or pending
    marker has status OK when it does not mention an error ("erro" or
    "error" in any case) and FAIL when it does; the empty text has
    status OK. *)
Theorem default_fallback (t : pystr)
        (Hs : ~ marker_found success_patterns t)
        (Hf : ~ marker_found failure_patterns t)
        (Hp : ~ marker_found pending_patterns t) :
  (~ mentions_error t -> determine_status t = OK)
  /\ (mentions_error t -> determine_status t = FAIL)
  /\ determine_status [] = OK.
Proof.
  rewrite (determine_status_unmarked t Hs Hf Hp). unfold mentions_error.
  repeat split.
  - intros H.
    destruct (contains (py "erro") (Unicode.lower t)) eqn:E1.
    { exfalso. apply H. left. now apply contains_occurs. }
    destruct (contains (py "error") (Unicode.lower t)) eqn:E2.
    { exfalso. apply H. right. now apply contains_occurs. }
    reflexivity.
  - intros [H | H]; apply contains_occurs in H; rewrite H;
      [reflexivity | now rewrite andb_false_r].
Qed.

Lemma default_fallback_witness : determine_status (py "") = OK.
Proof.
  refine (proj1 (default_fallback (py "") _ _ _) _).
  - apply any_search_not_found. reflexivity.
  - apply any_search_not_found. reflexivity.
  - apply any_search_not_found. reflexivity.
  - intros [H | H]; apply contains_occurs in H; discriminate.
Defined.

(** C4. Without a success marker, a failure marker gives FAIL, also
    when a pending marker is there too (the failure table is searched
    before the pending table); without success and failure markers a
    pending marker gives PENDING.  The two texts of the specification
    are instances. *)
Theorem failure_then_pending (t : pystr)
        (Hs : ~ marker_found success_patterns t) :
  (marker_found failure_patterns t -> determine_status t = FAIL)
  /\ (~ marker_found failure_patterns t -> marker_found pending_patterns t ->
      determine_status t = PENDING)
  /\ determine_status (py "Erro: falha na validação") = FAIL
  /\ determine_status (py "Processando") = PENDING.
Proof.
  apply any_search_not_found in Hs. unfold determine_status at 1 2.
  rewrite Hs. repeat split.
  - intros Hf. apply any_search_found in Hf. now rewrite Hf.
  - intros Hf Hp. apply any_search_not_found in Hf.
    apply any_search_found in Hp. now rewrite Hf, Hp.
Qed.

Lemma failure_then_pending_witness :
  marker_found pending_patterns (py "Processando... Erro: falha")
  /\ determine_status (py "Processando... Erro: falha") = FAIL.
Proof.
  split.
  - exists (literal (py "Processando")). split; [simpl; tauto | reflexivity].
  - refine (proj1 (failure_then_pending (py "Processando... Erro: falha") _) _).
    + apply any_search_not_found. reflexivity.
    + exists (literal (py "Erro:")). split; [simpl; tauto | reflexivity].
Defined.

(** C10. A text with no success, failure or pending marker has status
    OK: the last FAIL of the classifier is never reached, because a
    text with "erro" or "error" in its lowercase is already found by
    the case-insensitive failure pattern [erro]. *)
Theorem fallback_fail_unreachable (t : pystr)
        (Hs : ~ marker_found success_patterns t)
        (Hf : ~ marker_found failure_patterns t)
        (Hp : ~ marker_found pending_patterns t) :
  determine_status t = OK /\ ~ mentions_error t.
Proof.
  assert (He : ~ mentions_error t).
  { intros H. apply Hf. now apply mentions_error_failure_marker. }
  split; [|exact He].
  rewrite (determine_status_unmarked t Hs Hf Hp).
  destruct (contains (py "erro") (Unicode.lower t)) eqn:E1.
  { exfalso. apply He. left. now apply contains_occurs. }
  destruct (contains (py "error") (Unicode.lower t)) eqn:E2.
  { exfalso. apply He. right. now apply contains_occurs. }
  reflexivity.
Qed.

Lemma fallback_fail_unreachable_witness :
  determine_status (py "Rotina executada, nada a fazer") = OK
  /\ ~ mentions_error (py "Rotina executada, nada a fazer").
Proof.
  apply fallback_fail_unreachable; apply any_search_not_found; reflexivity.
Defined.

(** ** The timestamp extractor *)

Lemma below_enum (k : N) (P : N -> bool) :
  forallb P (map N.of_nat (seq 0 (N.to_nat k))) = true ->
  forall n, n < k -> P n = true.
Proof.
  intros H n Hn. rewrite forallb_forall in H. apply H.
  apply in_map_iff. exists (N.to_nat n). split; [apply N2Nat.id|].
  apply in_seq. lia.
Qed.

Lemma zero_padded_2 (n : N) : n < 100 -> all_digits 2 (zero_padded 2 n) = true.
Proof.
  apply (below_enum 100 (fun n => all_digits 2 (zero_padded 2 n))).
  vm_compute. reflexivity.
Qed.

Lemma decimal_4 (n : N) :
  n < 10000 -> (n <? 1000) || all_digits 4 (decimal n) = true.
Proof.
  apply (below_enum 10000 (fun n => (n <? 1000) || all_digits 4 (decimal n))).
  vm_compute. reflexivity.
Qed.

Lemma all_digits_2_inv (s : pystr) :
  all_digits 2 s = true ->
  exists a b, s = [a; b] /\ ascii_digit a = true /\ ascii_digit b = true.
Proof.
  destruct s as [|a [|b [|c s]]]; try discriminate.
  unfold all_digits. cbn [List.length Nat.eqb forallb andb].
  intros H. apply andb_true_iff in H as [Ha H].
  apply andb_true_iff in H as [Hb _]. now exists a, b.
Qed.

Lemma all_digits_4_inv (s : pystr) :
  all_digits 4 s = true ->
  exists a b c d, s = [a; b; c; d] /\ ascii_digit a = true /\ ascii_digit b = true
                  /\ ascii_digit c = true /\ ascii_digit d = true.
Proof.
  destruct s as [|a [|b [|c [|d [|e s]]]]]; try discriminate.
  unfold all_digits. cbn [List.length Nat.eqb forallb andb].
  intros H. apply andb_true_iff in H as [Ha H].
  apply andb_true_iff in H as [Hb H]. apply andb_true_iff in H as [Hc H].
  apply andb_true_iff in H as [Hd _]. now exists a, b, c, d.
Qed.

Lemma days_in_month_le_31 (y m : N) : days_in_month y m <= 31.
Proof.
  unfold days_in_month.
  repeat match goal with
         | |- context [if ?b then _ else _] => destruct b
         end; lia.
Qed.

Lemma valid_bounds (y m d hh mm ss : N) :
  valid y m d hh mm ss = true ->
  y < 10000 /\ m < 100 /\ d < 100 /\ hh < 100 /\ mm < 100 /\ ss < 100.
Proof.
  unfold valid, in_range. intros H.
  repeat match goal with
         | H : (_ && _) = true |- _ => apply andb_true_iff in H as [? ?]
         | H : (_ <=? _) = true |- _ => apply N.leb_le in H
         end.
  pose proof (days_in_month_le_31 y m). lia.
Qed.

Lemma strftime_canonical_format (t : datetime) :
  strftime canonical_format t =
  decimal (year t) ++ chr "-" :: zero_padded 2 (month t) ++ chr "-"
    :: zero_padded 2 (day t) ++ chr " " :: zero_padded 2 (hour t) ++ chr ":"
    :: zero_padded 2 (minute t) ++ chr ":" :: zero_padded 2 (second t).
Proof.
  unfold canonical_format.
  change (py "%Y-%m-%d %H:%M:%S") with
    [37; 89; 45; 37; 109; 45; 37; 100; 32; 37; 72; 58; 37; 77; 58; 37; 83].
  cbn [strftime]. now rewrite app_nil_r.
Qed.

Lemma strptime_valid (data format : pystr) (t : datetime) :
  strptime data format = Some t ->
  valid (year t) (month t) (day t) (hour t) (minute t) (second t) = true.
Proof.
  unfold strptime, make. intros H.
  repeat match type of H with
         | context [match ?x with _ => _ end] => destruct x eqn:?; try discriminate
         end.
  injection H as <-. assumption.
Qed.

Lemma canonical_strftime (t : datetime) :
  valid (year t) (month t) (day t) (hour t) (minute t) (second t) = true ->
  1000 <= year t ->
  canonical (strftime canonical_format t) = true.
Proof.
  intros H H4. apply valid_bounds in H as (Hy & Hm & Hd & Hh & Hn & Hs).
  rewrite strftime_canonical_format.
  pose proof (decimal_4 _ Hy) as Hy4.
  assert (E : (year t <? 1000) = false) by (apply N.ltb_ge; exact H4).
  rewrite E in Hy4. cbn [orb] in Hy4.
  destruct (all_digits_4_inv _ Hy4)
    as (y1 & y2 & y3 & y4 & -> & ? & ? & ? & ?).
  destruct (all_digits_2_inv _ (zero_padded_2 _ Hm)) as (m1 & m2 & -> & ? & ?).
  destruct (all_digits_2_inv _ (zero_padded_2 _ Hd)) as (d1 & d2 & -> & ? & ?).
  destruct (all_digits_2_inv _ (zero_padded_2 _ Hh)) as (h1 & h2 & -> & ? & ?).
  destruct (all_digits_2_inv _ (zero_padded_2 _ Hn)) as (n1 & n2 & -> & ? & ?).
  destruct (all_digits_2_inv _ (zero_padded_2 _ Hs)) as (c1 & c2 & -> & ? & ?).
  cbn [app canonical forallb].
  repeat match goal with
         | H : ascii_digit _ = true |- _ => rewrite H; clear H
         end.
  reflexivity.
Qed.

Lemma parse_execution_date_cases (t ts : pystr) :
  parse_execution_date t = Some ts ->
  exists data format parsed,
    strptime data format = Some parsed /\ ts = strftime canonical_format parsed.
Proof.
  unfold parse_execution_date. intros H.
  destruct (search execution_header_pattern t) as [found|]; [|discriminate].
  destruct (group 1 (groups found)) as [g|]; [|discriminate].
  destruct (strptime (replace (py " -03") [] (strip g)) _) as [p1|] eqn:E1.
  - injection H as <-. eauto.
  - destruct (strptime (strip g) _) as [p2|] eqn:E2; [|discriminate].
    injection H as <-. eauto.
Qed.

Lemma search_skip (r : regex) (pre rest : pystr) :
  starts_first r pre rest = true -> search r (pre ++ rest) = search r rest.
Proof.
  induction pre as [|c pre IH]; [reflexivity|].
  cbn [starts_first]. intros H. apply andb_true_iff in H as [H1 H2].
  cbn [app search]. cbn [app] in H1.
  destruct (re_match r (c :: pre ++ rest)); [discriminate|]. now apply IH.
Qed.

Lemma parse_execution_date_skip (pre rest : pystr) :
  starts_first execution_header_pattern pre rest = true ->
  parse_execution_date (pre ++ rest) = parse_execution_date rest.
Proof.
  intros H. unfold parse_execution_date. now rewrite (search_skip _ _ _ H).
Qed.

(** C5 as stated does not hold.  A log can contain the header and have
    no timestamp, when another header comes first; and the timestamp
    of a header with a year below 1000 is not in the format
    YYYY-MM-DD HH:MM:SS. *)
Lemma execution_timestamp_not_always_canonical :
  parse_execution_date (py "=== Execução: ontem ===" ++ newline ++ header_am)
  = None
  /\ parse_execution_date header_0999 = Some (py "999-08-20 09:23:03")
  /\ canonical (py "999-08-20 09:23:03") = false.
Proof.
  split; [|split]; vm_compute; reflexivity.
Qed.

(** C5, amended. A log whose first execution header is
    [=== Execução: Wed Aug 20 09:23:03 AM -03 2025 ===] (no match of
    the header pattern starts before it) has the timestamp
    "2025-08-20 09:23:03", whatever comes before and after: the offset
    token is removed, the rest is read by the first grammar.  A
    timestamp that is returned, for any text, is the rendering of a
    valid date, and it is in the format YYYY-MM-DD HH:MM:SS when the
    year of that date is 1000 or more. *)
Theorem execution_timestamp_canonical :
  (forall pre post,
      starts_first execution_header_pattern pre (header_am ++ post) = true ->
      parse_execution_date (pre ++ header_am ++ post)
      = Some (py "2025-08-20 09:23:03"))
  /\ replace (py " -03") [] (py "Wed Aug 20 09:23:03 AM -03 2025")
     = py "Wed Aug 20 09:23:03 AM 2025"
  /\ strptime (py "Wed Aug 20 09:23:03 AM 2025") grammar1
     = Some (mk_dt 2025 8 20 9 23 3)
  /\ (forall t ts,
         parse_execution_date t = Some ts ->
         exists d : datetime,
           ts = strftime canonical_format d
           /\ valid (year d) (month d) (day d) (hour d) (minute d) (second d)
              = true
           /\ (1000 <= year d -> canonical ts = true)).
Proof.
  split; [|split; [|split]].
  - intros pre post H. rewrite (parse_execution_date_skip _ _ H).
    vm_compute. reflexivity.
  - vm_compute. reflexivity.
  - vm_compute. reflexivity.
  - intros t ts H.
    destruct (parse_execution_date_cases t ts H) as (data & format & d & Hp & ->).
    exists d. apply strptime_valid in Hp.
    split; [reflexivity|]. split; [exact Hp|]. now apply canonical_strftime.
Qed.

Lemma execution_timestamp_canonical_witness :
  parse_execution_date
    ((py "Iniciando rotina ===" ++ newline) ++ header_am
     ++ (newline ++ py "=== Execução: 8/20/2025 9:23:06 AM ==="))
  = Some (py "2025-08-20 09:23:03")
  /\ exists d : datetime,
      py "2025-08-20 09:23:06" = strftime canonical_format d
      /\ valid (year d) (month d) (day d) (hour d) (minute d) (second d) = true
      /\ (1000 <= year d -> canonical (py "2025-08-20 09:23:06") = true).
Proof.
  split.
  - apply (proj1 execution_timestamp_canonical). vm_compute. reflexivity.
  - apply (proj2 (proj2 (proj2 execution_timestamp_canonical)) header_slash).
    vm_compute. reflexivity.
Defined.

(** C6 as stated does not hold: the date alone, without the
    [=== Execução: ... ===] header around it, gives no timestamp. *)
Lemma slash_date_without_header :
  parse_execution_date slash_date <> Some (py "2025-08-20 09:23:06").
Proof. vm_compute. discriminate. Qed.

(** C6, amended. Inside the header, the date [8/20/2025 9:23:06 AM] is
    read as "2025-08-20 09:23:06" by the second grammar, which is tried
    on the text of the header as it is (the offset token still in it)
    once the first grammar has failed; with no header, or when both
    grammars fail, there is no timestamp, and no error. *)
Theorem slash_date_in_header :
  parse_execution_date header_slash = Some (py "2025-08-20 09:23:06")
  /\ strptime (replace (py " -03") [] slash_date) grammar1 = None
  /\ strptime slash_date grammar2 = Some (mk_dt 2025 8 20 9 23 6)
  /\ (forall t, search execution_header_pattern t = None ->
                parse_execution_date t = None)
  /\ (forall t found g,
         search execution_header_pattern t = Some found ->
         group 1 (groups found) = Some g ->
         strptime (replace (py " -03") [] (strip g)) grammar1 = None ->
         parse_execution_date t
         = option_map (strftime canonical_format) (strptime (strip g) grammar2))
  /\ parse_execution_date (py "=== Execução: 8/20/2025 9:23:06 AM -03 ===") = None
  /\ parse_execution_date (py "=== Execução: ontem ===") = None.
Proof.
  split; [vm_compute; reflexivity|].
  split; [vm_compute; reflexivity|].
  split; [vm_compute; reflexivity|].
  split; [|split; [|split; vm_compute; reflexivity]].
  - intros t H. unfold parse_execution_date. now rewrite H.
  - intros t found g Hs Hg H1. unfold parse_execution_date.
    rewrite Hs, Hg, H1.
    now destruct (strptime (strip g) grammar2).
Qed.

Lemma slash_date_in_header_witness :
  parse_execution_date slash_date = None
  /\ parse_execution_date (header_slash ++ newline ++ py "Finalizado sem erros")
     = Some (py "2025-08-20 09:23:06").
Proof.
  destruct slash_date_in_header as (_ & _ & H2 & Hnone & Hsecond & _).
  split.
  - apply Hnone. vm_compute. reflexivity.
  - rewrite (Hsecond (header_slash ++ newline ++ py "Finalizado sem erros")
                     (mk_found [(1, slash_date)] header_slash
                               (newline ++ py "Finalizado sem erros"))
                     slash_date).
    + vm_compute. reflexivity.
    + vm_compute. reflexivity.
    + reflexivity.
    + vm_compute. reflexivity.
Defined.

(** ** The message extractor *)

Lemma qualifies_test (line : pystr) :
  qualifies line = significant line && Nat.ltb 10 (List.length line).
Proof.
  unfold qualifies, significant. now destruct line.
Qed.

Lemma summary_spec (line : pystr) :
  (List.length line <= 100 -> summary line = line)%nat
  /\ (100 < List.length line -> summary line = firstn 100 line ++ py "...")%nat
  /\ (List.length (summary line) <= 103)%nat.
Proof.
  unfold summary. destruct (Nat.ltb 100 (List.length line)) eqn:E.
  - apply Nat.ltb_lt in E. repeat split; try lia.
    rewrite length_app, length_firstn.
    change (List.length (py "...")) with 3%nat. lia.
  - apply Nat.ltb_ge in E. repeat split; lia.
Qed.

Lemma first_message_spec (lines : list pystr) :
  match first_message lines with
  | Some m =>
    exists before raw after,
      lines = before ++ raw :: after
      /\ Forall (fun l => qualifies (strip l) = false) before
      /\ qualifies (strip raw) = true
      /\ m = summary (strip raw)
  | None => Forall (fun l => qualifies (strip l) = false) lines
  end.
Proof.
  induction lines as [|raw rest IH]; [constructor|].
  cbn [first_message]. cbv zeta.
  destruct (qualifies (strip raw)) eqn:Q; rewrite qualifies_test in Q.
  - apply andb_true_iff in Q as [Q1 Q2]. rewrite Q1, Q2.
    exists [], raw, rest. rewrite qualifies_test, Q1, Q2. auto.
  - assert (Hskip : (if significant (strip raw)
                     then if Nat.ltb 10 (List.length (strip raw))
                          then Some (summary (strip raw))
                          else first_message rest
                     else first_message rest) = first_message rest).
    { destruct (significant (strip raw)); [|reflexivity].
      simpl in Q. now rewrite Q. }
    rewrite Hskip. rewrite <- qualifies_test in Q.
    destruct (first_message rest) as [m|].
    + destruct IH as (before & raw' & after & -> & Hb & Hq & Hm).
      exists (raw :: before), raw', after. repeat split; auto.
    + constructor; auto.
Qed.

(** C7. The message is taken from the first line, in the order of the
    text, that once trimmed is not empty, does not start with [===]
    nor with the noise prefix, and has more than 10 characters; it is
    that trimmed line as it is when it has at most 100 characters, and
    its first 100 characters followed by [...] when it is longer, so
    at most 103 characters; there is no message when no line
    qualifies. *)
Theorem message_extractor (t : pystr) :
  match message (extract_key_info t) with
  | Some m =>
    exists before raw after,
      split 10 t = before ++ raw :: after
      /\ Forall (fun l => qualifies (strip l) = false) before
      /\ qualifies (strip raw) = true
      /\ (List.length (strip raw) <= 100 -> m = strip raw)%nat
      /\ (100 < List.length (strip raw) ->
          m = firstn 100 (strip raw) ++ py "...")%nat
      /\ (List.length m <= 103)%nat
  | None => Forall (fun l => qualifies (strip l) = false) (split 10 t)
  end.
Proof.
  cbn [message extract_key_info].
  pose proof (first_message_spec (split 10 t)) as H.
  destruct (first_message (split 10 t)) as [m|]; [|exact H].
  destruct H as (before & raw & after & Hl & Hb & Hq & ->).
  exists before, raw, after.
  destruct (summary_spec (strip raw)) as (H1 & H2 & H3). auto 7.
Qed.

Lemma message_extractor_witness :
  message (extract_key_info
             (newline ++ py "=== Execução: ontem ===" ++ newline ++ py "   "
              ++ newline ++ py "lsfnjdn ruido do produtor" ++ newline
              ++ py "curta" ++ newline ++ py "  Lote 42 lido  " ++ newline
              ++ py "Finalizado sem erros"))
  = Some (py "Lote 42 lido")
  /\ exists before raw after,
      split 10 (newline ++ py "=== Execução: ontem ===" ++ newline ++ py "   "
                ++ newline ++ py "lsfnjdn ruido do produtor" ++ newline
                ++ py "curta" ++ newline ++ py "  Lote 42 lido  " ++ newline
                ++ py "Finalizado sem erros")
      = before ++ raw :: after
      /\ Forall (fun l => qualifies (strip l) = false) before
      /\ qualifies (strip raw) = true
      /\ (List.length (strip raw) <= 100 -> py "Lote 42 lido" = strip raw)%nat
      /\ (100 < List.length (strip raw) ->
          py "Lote 42 lido" = firstn 100 (strip raw) ++ py "...")%nat
      /\ (List.length (py "Lote 42 lido") <= 103)%nat.
Proof.
  split; [vm_compute; reflexivity|].
  exact (message_extractor
           (newline ++ py "=== Execução: ontem ===" ++ newline ++ py "   "
            ++ newline ++ py "lsfnjdn ruido do produtor" ++ newline
            ++ py "curta" ++ newline ++ py "  Lote 42 lido  " ++ newline
            ++ py "Finalizado sem erros")).
Defined.

(** ** The store *)

Lemma str_ltb_asym (a b : pystr) : str_ltb a b = true -> str_ltb b a = false.
Proof.
  revert b; induction a as [|x a IH]; intros [|y b]; simpl; try reflexivity;
    try discriminate.
  intros H. apply orb_true_iff in H as [H | H].
  - apply N.ltb_lt in H.
    assert (E1 : (y <? x) = false) by (apply N.ltb_ge; lia).
    assert (E2 : (y =? x) = false) by (apply N.eqb_neq; lia).
    now rewrite E1, E2.
  - apply andb_true_iff in H as [H1 H2]. apply N.eqb_eq in H1. subst y.
    now rewrite N.ltb_irrefl, N.eqb_refl, (IH b H2).
Qed.

Lemma str_ltb_irrefl (a : pystr) : str_ltb a a = false.
Proof.
  induction a as [|x a IH]; [reflexivity|].
  simpl. now rewrite N.ltb_irrefl, N.eqb_refl, IH.
Qed.

Lemma not_before_refl (r : option pystr) : not_before r r.
Proof. destruct r; simpl; [apply str_ltb_irrefl | exact I]. Qed.

(** The guarded update of [seed_mock_data] never moves the last run
    of a job back. *)
Lemma update_last_if_newer_monotone (st : status) (ts n : pystr) (db : store) :
  Forall2 (fun a a' => name a' = name a /\ not_before (last_run a) (last_run a'))
          (automations db) (automations (update_last_if_newer st ts n db)).
Proof.
  unfold update_last_if_newer. cbn [automations].
  induction (automations db) as [|a l IH]; [constructor|].
  cbn [map]. constructor; [|exact IH].
  destruct (str_eqb (name a) n && newer ts a) eqn:E.
  - cbn [name last_run]. split; [reflexivity|].
    apply andb_true_iff in E as [_ E]. unfold newer in E.
    destruct (last_run a) as [r|]; [|exact I].
    simpl. now apply str_ltb_asym.
  - split; [reflexivity | apply not_before_refl].
Qed.

(** C8 fails on [add_real_log]: on the store of [seed_mock_data], job
    C1 last ran at 2025-08-29 08:00:00; a log whose header carries the
    earlier 2025-08-20 09:23:03 moves its last run back to that time,
    whatever the clock says. *)
Theorem add_real_log_moves_last_run_back (now : pystr) :
  let db := seed_mock_data empty_store in
  let log := header_am ++ newline ++ py "Finalizado sem erros" in
  let db' := fst (add_real_log now (py "C1") log db) in
  option_map last_run (find_automation (py "C1") db)
  = Some (Some (py "2025-08-29 08:00:00"))
  /\ option_map last_run (find_automation (py "C1") db')
     = Some (Some (py "2025-08-20 09:23:03"))
  /\ ~ not_before (Some (py "2025-08-29 08:00:00"))
                  (Some (py "2025-08-20 09:23:03")).
Proof.
  cbv zeta. split; [vm_compute; reflexivity|].
  split; [vm_compute; reflexivity|].
  vm_compute. discriminate.
Qed.

(** ** The report on the console *)

Lemma str_eqb_eq (a b : pystr) : str_eqb a b = true <-> a = b.
Proof.
  unfold str_eqb. destruct (list_eq_dec N.eq_dec a b); split; intros H;
    try reflexivity; try assumption; try discriminate; contradiction.
Qed.

Lemma str_eqb_neq (a b : pystr) : str_eqb a b = false <-> a <> b.
Proof.
  unfold str_eqb. destruct (list_eq_dec N.eq_dec a b); split; intros H;
    try reflexivity; try assumption; try discriminate; contradiction.
Qed.

Lemma tags_no_bracket (s : pystr) :
  ~ In (chr "[") s -> forall k, tags k 0 s = [].
Proof.
  induction s as [|c s IH]; intros H k; [reflexivity|].
  cbn [tags].
  destruct (c =? 92); [apply IH; intros Hs; apply H; now right|].
  destruct (c =? chr "[") eqn:E.
  - apply N.eqb_eq in E. exfalso. apply H. now left.
  - apply IH. intros Hs. apply H. now right.
Qed.

Lemma not_found_markup_tags (n : pystr) :
  tags 0 0 (not_found_markup n)
  = py "red" :: py "/red" :: tags 0 0 (n ++ py "' não encontrada").
Proof.
  unfold not_found_markup. vm_compute. reflexivity.
Qed.

Section RenderSteps.
Variable normalize : pystr -> pystr.
Variable meta_ok : pystr -> bool.

Lemma render_open (text name : pystr) (parameters : option pystr)
      (rest : list pystr) (stack : list tag) :
  partition_eq text = (name, parameters) ->
  startswith (py "/") name = false ->
  render_raises normalize meta_ok (text :: rest) stack
  = render_raises normalize meta_ok rest
      (mk_tag (normalize name) parameters :: stack).
Proof.
  intros Hp Hs. cbn [render_raises]. now rewrite Hp, Hs.
Qed.

Lemma render_close (text name : pystr) (parameters : option pystr)
      (c : codepoint) (style_name : pystr) (rest : list pystr)
      (stack : list tag) :
  partition_eq text = (name, parameters) ->
  startswith (py "/") name = true ->
  strip (tl name) = c :: style_name ->
  render_raises normalize meta_ok (text :: rest) stack
  = match pop_style (normalize (c :: style_name)) stack with
    | None => true
    | Some (open_tag, stack') =>
      if closed_ok meta_ok open_tag
      then render_raises normalize meta_ok rest stack'
      else true
    end.
Proof.
  intros Hp Hs Ht. cbn [render_raises]. now rewrite Hp, Hs, Ht.
Qed.

Lemma render_red (rest : list pystr) :
  render_raises normalize meta_ok (py "red" :: py "/red" :: rest) []
  = render_raises normalize meta_ok rest [].
Proof.
  rewrite (render_open (py "red") (py "red") None);
    [|vm_compute; reflexivity|vm_compute; reflexivity].
  rewrite (render_close (py "/red") (py "/red") None 114 [101; 100]);
    [|vm_compute; reflexivity|vm_compute; reflexivity|vm_compute; reflexivity].
  change (114 :: [101; 100]) with (py "red").
  cbn [pop_style tag_name].
  assert (E : str_eqb (normalize (py "red")) (normalize (py "red")) = true)
    by now apply str_eqb_eq.
  rewrite E. unfold closed_ok. cbn [tag_parameters tag_name].
  now destruct (startswith (py "@") (normalize (py "red"))).
Qed.

Lemma not_found_markup_ok (n : pystr) :
  ~ In (chr "[") n -> markup_error normalize meta_ok (not_found_markup n) = false.
Proof.
  intros H. unfold markup_error.
  rewrite not_found_markup_tags, render_red, tags_no_bracket.
  - now destruct (contains _ _).
  - intros Hin. apply in_app_or in Hin as [Hin | Hin]; [exact (H Hin)|].
    clear - Hin. revert Hin. vm_compute. intros Hin.
    repeat (destruct Hin as [Hin | Hin]; [discriminate|]). exact Hin.
Qed.

Lemma not_found_markup_raises :
  markup_error normalize meta_ok (not_found_markup (py "[/x]")) = true.
Proof.
  unfold markup_error.
  assert (C : contains (py "[") (not_found_markup (py "[/x]")) = true)
    by (vm_compute; reflexivity).
  rewrite C, not_found_markup_tags.
  assert (T : tags 0 0 (py "[/x]" ++ py "' não encontrada") = [py "/x"])
    by (vm_compute; reflexivity).
  rewrite T, render_red.
  rewrite (render_close (py "/x") (py "/x") None 120 []);
    [reflexivity|vm_compute; reflexivity|vm_compute; reflexivity
     |vm_compute; reflexivity].
Qed.

End RenderSteps.

(** C9. A log for a job that is not in table [automations] leaves the
    store as it was, for every name: no row of [logs] is added and no
    row of [automations] is changed.  The only text handed to
    [console.print] is then the message that the job was not found,
    and it is shown when the name has no opening bracket.  But the
    name is put into console markup as it is: for the name [[/x]],
    which is not registered, [console.print] raises [MarkupError]
    (a closing tag that closes nothing) and nothing is reported. *)
Theorem unknown_job_report_raises
        (normalize : pystr -> pystr) (meta_ok : pystr -> bool)
        (now log : pystr) :
  (forall n db,
      select_name n db = None ->
      fst (add_real_log now n log db) = db
      /\ (encodable n = true ->
          add_real_log_prints n (snd (add_real_log now n log db))
          = [not_found_markup n]
          /\ (~ In (chr "[") n ->
              markup_error normalize meta_ok (not_found_markup n) = false)))
  /\ select_name (py "[/x]") (seed_mock_data empty_store) = None
  /\ encodable (py "[/x]") = true
  /\ markup_error normalize meta_ok (not_found_markup (py "[/x]")) = true.
Proof.
  split.
  - intros n db H. unfold add_real_log. rewrite H. cbn [fst snd].
    split; [reflexivity|]. intros _. split; [reflexivity|].
    apply not_found_markup_ok.
  - split; [vm_compute; reflexivity|].
    split; [vm_compute; reflexivity|].
    apply not_found_markup_raises.
Qed.

Lemma unknown_job_report_raises_witness :
  fst (add_real_log (py "2025-09-01 10:00:00") (py "ZZ9")
                    (py "Finalizado sem erros") (seed_mock_data empty_store))
  = seed_mock_data empty_store
  /\ markup_error (fun s => s) (fun _ => true) (not_found_markup (py "ZZ9"))
     = false.
Proof.
  pose proof (proj1 (unknown_job_report_raises
                       (fun s => s) (fun _ => true)
                       (py "2025-09-01 10:00:00") (py "Finalizado sem erros"))
                    (py "ZZ9") (seed_mock_data empty_store)) as H.
  assert (Hs : select_name (py "ZZ9") (seed_mock_data empty_store) = None)
    by (vm_compute; reflexivity).
  destruct (H Hs) as [H1 H2]. split; [exact H1|].
  assert (He : encodable (py "ZZ9") = true) by (vm_compute; reflexivity).
  destruct (H2 He) as [_ H3]. apply H3.
  clear. vm_compute. intros Hin.
  repeat (destruct Hin as [Hin | Hin]; [discriminate|]). exact Hin.
Defined.

(** * More of the engine and of the command line *)

(** ** Markers survive what is written around them *)

Lemma greedy_extend (k : cls) (post s : pystr) (m : found) :
  In m (greedy k s) ->
  exists m', In m' (greedy k (s ++ post)) /\ rest m' = rest m ++ post.
Proof.
  revert m; induction s as [|c s IH]; intros m Hm; [contradiction|].
  cbn [greedy app] in *. destruct (cls_mem k c); [|contradiction].
  apply in_app_or in Hm as [Hm | [<- | []]].
  - apply in_map_iff in Hm as (m0 & <- & Hm0).
    destruct (IH m0 Hm0) as (m0' & Hin & Hr).
    exists (extend c m0'). split; [|exact Hr].
    apply in_or_app. left. now apply in_map.
  - exists (mk_found [] [c] (s ++ post)). split; [|reflexivity].
    apply in_or_app. right. now left.
Qed.

Lemma lazy_extend (k : cls) (post s : pystr) (m : found) :
  In m (lazy k s) ->
  exists m', In m' (lazy k (s ++ post)) /\ rest m' = rest m ++ post.
Proof.
  revert m; induction s as [|c s IH]; intros m Hm; [contradiction|].
  cbn [lazy app] in *. destruct (cls_mem k c); [|contradiction].
  destruct Hm as [<- | Hm].
  - exists (mk_found [] [c] (s ++ post)). split; [now left | reflexivity].
  - apply in_map_iff in Hm as (m0 & <- & Hm0).
    destruct (IH m0 Hm0) as (m0' & Hin & Hr).
    exists (extend c m0'). split; [|exact Hr]. right. now apply in_map.
Qed.

(** A match is still there when text is appended. *)
Lemma matches_extend (r : regex) (post : pystr) :
  forall s m, In m (matches r s) ->
              exists m', In m' (matches r (s ++ post)) /\ rest m' = rest m ++ post.
Proof.
  induction r as [|p|k|r1 IH1 r2 IH2|r1 IH1 r2 IH2|k|k|name r IH]; intros s m Hm.
  - destruct Hm as [<- | []]. eexists. split; [now left | reflexivity].
  - destruct s as [|c s]; [contradiction|]. cbn [matches app] in *.
    destruct (lit_match p c); [|contradiction]. destruct Hm as [<- | []].
    eexists. split; [now left | reflexivity].
  - destruct s as [|c s]; [contradiction|]. cbn [matches app] in *.
    destruct (cls_mem k c); [|contradiction]. destruct Hm as [<- | []].
    eexists. split; [now left | reflexivity].
  - cbn [matches] in *. apply in_flat_map in Hm as (m1 & H1 & Hm).
    apply in_map_iff in Hm as (m2 & <- & H2).
    destruct (IH1 s m1 H1) as (m1' & H1' & R1).
    destruct (IH2 (rest m1) m2 H2) as (m2' & H2' & R2).
    eexists. split.
    + apply in_flat_map. exists m1'. split; [exact H1'|].
      apply in_map. rewrite R1. exact H2'.
    + exact R2.
  - cbn [matches] in *. apply in_app_or in Hm as [Hm | Hm].
    + destruct (IH1 s m Hm) as (m' & H' & R). exists m'. split; [|exact R].
      apply in_or_app. now left.
    + destruct (IH2 s m Hm) as (m' & H' & R). exists m'. split; [|exact R].
      apply in_or_app. now right.
  - now apply greedy_extend.
  - now apply lazy_extend.
  - cbn [matches] in *. apply in_map_iff in Hm as (m0 & <- & H0).
    destruct (IH s m0 H0) as (m0' & H0' & R).
    eexists. split; [apply in_map; exact H0' | exact R].
Qed.

Lemma search_extend (r : regex) (post s : pystr) :
  is_some (search r s) = true -> is_some (search r (s ++ post)) = true.
Proof.
  induction s as [|c s IH]; intros H.
  - cbn [search] in H. unfold re_match in H.
    destruct (matches r []) as [|m l] eqn:E; [discriminate|].
    destruct (matches_extend r post [] m) as (m' & Hin & _); [rewrite E; now left|].
    apply search_here. intros E'. rewrite E' in Hin. contradiction.
  - cbn [search] in H. unfold re_match in H.
    destruct (matches r (c :: s)) as [|m l] eqn:E.
    + cbn [hd_error] in H. apply (search_later r c), IH, H.
    + destruct (matches_extend r post (c :: s) m) as (m' & Hin & _);
        [rewrite E; now left|].
      apply search_here. intros E'. rewrite E' in Hin. contradiction.
Qed.

Lemma marker_found_around (table : list regex) (pre t post : pystr) :
  marker_found table t -> marker_found table (pre ++ t ++ post).
Proof.
  intros (p & Hin & Hs). exists p. split; [exact Hin|].
  now apply search_after, search_extend.
Qed.

(** X1. Once a success marker is in a text, the status stays OK
    whatever is written before and after it: a later failure cannot
    change it. *)
Theorem success_marker_persists (t : pystr)
        (Hs : marker_found success_patterns t) (pre post : pystr) :
  determine_status (pre ++ t ++ post) = OK.
Proof.
  apply (marker_found_around _ pre t post), any_search_found in Hs.
  unfold determine_status. now rewrite Hs.
Qed.

Lemma success_marker_persists_witness :
  determine_status
    (py "Exception: fatal" ++ newline ++ py "Conexão aberta com sucesso"
     ++ newline ++ py "Erro: falhou") = OK.
Proof.
  refine (success_marker_persists (py "Conexão aberta com sucesso") _
            (py "Exception: fatal" ++ newline) (newline ++ py "Erro: falhou")).
  exists (literal (py "Conexão aberta com sucesso")).
  split; [simpl; tauto | reflexivity].
Defined.

(** X2. A text with a failure marker in it is never PENDING, whatever
    is written before and after the marker. *)
Theorem failure_marker_never_pending (t : pystr)
        (Hf : marker_found failure_patterns t) (pre post : pystr) :
  determine_status (pre ++ t ++ post) <> PENDING.
Proof.
  apply (marker_found_around _ pre t post), any_search_found in Hf.
  unfold determine_status. rewrite Hf.
  destruct (any_search success_patterns (pre ++ t ++ post)); discriminate.
Qed.

Lemma failure_marker_never_pending_witness :
  determine_status (py "Iniciando" ++ newline ++ py "Timeout"
                    ++ newline ++ py "Aguardando") <> PENDING.
Proof.
  refine (failure_marker_never_pending (py "Timeout") _
            (py "Iniciando" ++ newline) (newline ++ py "Aguardando")).
  exists (literal (py "Timeout")). split; [simpl; tauto | reflexivity].
Defined.

(** ** The classifier as a table *)

Lemma no_failure_no_error_word (t : pystr) :
  any_search failure_patterns t = false ->
  contains (py "erro") (Unicode.lower t) = false
  /\ contains (py "error") (Unicode.lower t) = false.
Proof.
  intros Hf. apply any_search_not_found in Hf.
  split; apply contains_false_not_occurs; intros H; apply Hf,
    mentions_error_failure_marker; [now left | now right].
Qed.

(** X3. The status is decided by the three tables alone: OK with a
    success marker, else FAIL with a failure marker, else PENDING with
    a pending marker, else OK; the test of the words "erro" and
    "error" never changes it. *)
Theorem determine_status_by_tables (t : pystr) :
  determine_status t =
  status_by_tables (any_search success_patterns t)
                   (any_search failure_patterns t)
                   (any_search pending_patterns t).
Proof.
  unfold determine_status, status_by_tables.
  destruct (any_search success_patterns t); [reflexivity|].
  destruct (any_search failure_patterns t) eqn:Hf; [reflexivity|].
  destruct (any_search pending_patterns t); [reflexivity|].
  destruct (no_failure_no_error_word t Hf) as [-> ->]. reflexivity.
Qed.

(** ** The case of ASCII letters *)

Lemma in_range_true (lo hi c : N) : in_range lo hi c = true <-> lo <= c <= hi.
Proof.
  unfold in_range. rewrite andb_true_iff, !N.leb_le. tauto.
Qed.

Lemma in_range_false (lo hi c : N) : in_range lo hi c = false <-> c < lo \/ hi < c.
Proof.
  unfold in_range. rewrite andb_false_iff, !N.leb_gt. tauto.
Qed.

Lemma ascii_upper_props (c : codepoint) :
  tolower (ascii_upper c) = tolower c
  /\ isdecimal (ascii_upper c) = isdecimal c
  /\ isspace (ascii_upper c) = isspace c
  /\ (ascii_upper c =? 10) = (c =? 10)
  /\ (ascii_upper c =? 0x130) = (c =? 0x130).
Proof.
  destruct (N.lt_ge_cases c 123) as [Hc | Hc].
  - pose proof (below_enum 123
      (fun c => (tolower (ascii_upper c) =? tolower c)
                && Bool.eqb (isdecimal (ascii_upper c)) (isdecimal c)
                && Bool.eqb (isspace (ascii_upper c)) (isspace c)
                && Bool.eqb (ascii_upper c =? 10) (c =? 10)
                && Bool.eqb (ascii_upper c =? 0x130) (c =? 0x130))
      eq_refl c Hc) as H.
    cbv beta in H.
    repeat match type of H with
           | (_ && _) = true => apply andb_true_iff in H as [H ?]
           end.
    repeat match goal with
           | H : Bool.eqb _ _ = true |- _ => apply Bool.eqb_prop in H
           end.
    apply N.eqb_eq in H. auto.
  - assert (E : ascii_upper c = c).
    { unfold ascii_upper.
      assert (F : in_range 0x61 0x7a c = false) by (apply in_range_false; lia).
      now rewrite F. }
    now rewrite E.
Qed.

Lemma lit_match_upper (p x : codepoint) :
  lit_match p (ascii_upper x) = lit_match p x.
Proof.
  unfold lit_match. destruct (iscased p) eqn:Hp.
  - cbv zeta. now rewrite (proj1 (ascii_upper_props x)).
  - unfold ascii_upper. destruct (in_range 0x61 0x7a x) eqn:Hx; [|reflexivity].
    apply in_range_true in Hx. unfold iscased in Hp.
    apply orb_false_iff in Hp as [Hp _]. apply orb_false_iff in Hp as [Hp _].
    apply orb_false_iff in Hp as [H1 H2].
    apply in_range_false in H1, H2.
    assert (E1 : (x - 32 =? p) = false) by (apply N.eqb_neq; lia).
    assert (E2 : (x =? p) = false) by (apply N.eqb_neq; lia).
    now rewrite E1, E2.
Qed.

Lemma cls_mem_upper (k : cls) (x : codepoint) :
  match k with Range _ _ => false | _ => true end = true ->
  cls_mem k (ascii_upper x) = cls_mem k x.
Proof.
  destruct (ascii_upper_props x) as (_ & Hd & Hs & Hn & _).
  destruct k; intros H; cbn [cls_mem]; try discriminate; congruence.
Qed.

Lemma extend_upper (c : codepoint) (m : found) :
  extend (ascii_upper c) (upper_found m) = upper_found (extend c m).
Proof. reflexivity. Qed.

Lemma greedy_upper (k : cls) (s : pystr) :
  match k with Range _ _ => false | _ => true end = true ->
  greedy k (upper_text s) = map upper_found (greedy k s).
Proof.
  intros Hk. induction s as [|c s IH]; [reflexivity|].
  cbn [upper_text map greedy]. fold (upper_text s).
  rewrite (cls_mem_upper k c Hk). destruct (cls_mem k c); [|reflexivity].
  rewrite IH, map_app, !map_map. reflexivity.
Qed.

Lemma lazy_upper (k : cls) (s : pystr) :
  match k with Range _ _ => false | _ => true end = true ->
  lazy k (upper_text s) = map upper_found (lazy k s).
Proof.
  intros Hk. induction s as [|c s IH]; [reflexivity|].
  cbn [upper_text map lazy]. fold (upper_text s).
  rewrite (cls_mem_upper k c Hk). destruct (cls_mem k c); [|reflexivity].
  rewrite IH. cbn [map]. rewrite !map_map. reflexivity.
Qed.

Lemma flat_map_upper (g : found -> list found) (l : list found) :
  (forall m, g (upper_found m) = map upper_found (g m)) ->
  flat_map g (map upper_found l) = map upper_found (flat_map g l).
Proof.
  intros H. induction l as [|m l IH]; [reflexivity|].
  cbn [map flat_map]. now rewrite map_app, H, IH.
Qed.

(** A pattern without ranges matches a text in upper case the way it
    matches the text. *)
Lemma matches_upper (r : regex) :
  rangeless r = true ->
  forall s, matches r (upper_text s) = map upper_found (matches r s).
Proof.
  induction r as [|p|k|r1 IH1 r2 IH2|r1 IH1 r2 IH2|k|k|name r IH];
    cbn [rangeless]; intros Hr s.
  - reflexivity.
  - destruct s as [|c s]; [reflexivity|].
    cbn [upper_text map matches]. rewrite lit_match_upper.
    now destruct (lit_match p c).
  - destruct s as [|c s]; [reflexivity|].
    cbn [upper_text map matches]. rewrite (cls_mem_upper k c Hr).
    now destruct (cls_mem k c).
  - apply andb_true_iff in Hr as [H1 H2]. cbn [matches].
    rewrite (IH1 H1). apply flat_map_upper. intros m1.
    change (rest (upper_found m1)) with (upper_text (rest m1)).
    rewrite (IH2 H2), !map_map. apply map_ext. intros m2.
    unfold upper_found. cbn [groups matched rest]. unfold upper_text.
    now rewrite !map_app.
  - apply andb_true_iff in Hr as [H1 H2]. cbn [matches].
    now rewrite (IH1 H1), (IH2 H2), map_app.
  - now apply greedy_upper.
  - now apply lazy_upper.
  - cbn [matches]. rewrite (IH Hr), !map_map. reflexivity.
Qed.

Lemma search_upper (r : regex) (s : pystr) :
  rangeless r = true ->
  is_some (search r (upper_text s)) = is_some (search r s).
Proof.
  intros Hr. induction s as [|c s IH].
  - cbn [upper_text map search]. unfold re_match.
    change (@nil codepoint) with (upper_text []) at 1.
    rewrite (matches_upper r Hr). now destruct (matches r []).
  - cbn [search]. change (upper_text (c :: s)) with (ascii_upper c :: upper_text s).
    cbn [search]. unfold re_match.
    change (ascii_upper c :: upper_text s) with (upper_text (c :: s)).
    rewrite (matches_upper r Hr). destruct (matches r (c :: s)); [exact IH|reflexivity].
Qed.

Lemma any_search_upper (table : list regex) (t : pystr) :
  forallb rangeless table = true ->
  any_search table (upper_text t) = any_search table t.
Proof.
  induction table as [|p table IH]; [reflexivity|].
  cbn [forallb any_search]. intros H. apply andb_true_iff in H as [Hp Ht].
  now rewrite (search_upper p t Hp), (IH Ht).
Qed.

Lemma lower_upper (t : pystr) : Unicode.lower (upper_text t) = Unicode.lower t.
Proof.
  induction t as [|c t IH]; [reflexivity|].
  cbn [upper_text map]. fold (upper_text t). rewrite !lower_cons, IH.
  unfold lower_full. destruct (ascii_upper_props c) as (Hl & _ & _ & _ & Hi).
  now rewrite Hl, Hi.
Qed.

Lemma determine_status_upper (t : pystr) :
  determine_status (upper_text t) = determine_status t.
Proof.
  unfold determine_status.
  now rewrite !any_search_upper, lower_upper by reflexivity.
Qed.

(** X4. The status does not depend on the case of the ASCII letters:
    two texts that are equal once their letters a-z are put in upper
    case have the same status. *)
Theorem determine_status_ascii_case (t1 t2 : pystr)
        (H : upper_text t1 = upper_text t2) :
  determine_status t1 = determine_status t2.
Proof.
  now rewrite <- (determine_status_upper t1), H, determine_status_upper.
Qed.

Lemma determine_status_ascii_case_witness :
  determine_status (py "PROCESSAMENTO iniciado; falhou")
  = determine_status (py "processamento INICIADO; FALHOU").
Proof.
  apply determine_status_ascii_case. vm_compute. reflexivity.
Defined.

(** ** More on the timestamp *)

Lemma seq_matches_nonempty (r1 r2 : regex) (s : pystr) :
  matches (Seq r1 r2) s <> [] -> matches r1 s <> [].
Proof.
  cbn [matches]. destruct (matches r1 s); [intros H; now apply H | discriminate].
Qed.

Lemma literal_head_uncased (p : codepoint) (m s : pystr) :
  iscased p = false -> matches (literal (p :: m)) s <> [] ->
  exists s', s = p :: s' /\ matches (literal m) s' <> [].
Proof.
  intros Hp H. cbn [literal matches] in H.
  destruct s as [|c s]; [now contradiction H|].
  destruct (lit_match p c) eqn:E; [|now contradiction H].
  unfold lit_match in E. rewrite Hp in E. apply N.eqb_eq in E. subst c.
  exists s. split; [reflexivity|].
  cbn [flat_map rest] in H. rewrite app_nil_r in H.
  intros E. rewrite E in H. now apply H.
Qed.

Lemma header_starts_with_decoration (s : pystr) :
  matches execution_header_pattern s <> [] -> startswith (py "===") s = true.
Proof.
  unfold execution_header_pattern. intros H. apply seq_matches_nonempty in H.
  change (py "=== Execução: ") with (61 :: 61 :: 61 :: py " Execução: ") in H.
  apply literal_head_uncased in H as (s1 & -> & H); [|reflexivity].
  apply literal_head_uncased in H as (s2 & -> & H); [|reflexivity].
  apply literal_head_uncased in H as (s3 & -> & H); [|reflexivity].
  reflexivity.
Qed.

Lemma search_some_suffix (r : regex) (t : pystr) :
  is_some (search r t) = true ->
  exists pre s, t = pre ++ s /\ matches r s <> [].
Proof.
  induction t as [|c t IH]; cbn [search]; unfold re_match; intros H.
  - exists [], []. split; [reflexivity|]. now destruct (matches r []).
  - destruct (matches r (c :: t)) eqn:E.
    + destruct (IH H) as (pre & s & -> & Hs). now exists (c :: pre), s.
    + exists [], (c :: t). split; [reflexivity|]. rewrite E. discriminate.
Qed.

(** X5. A text without [===] anywhere has no timestamp: the date is
    only looked for inside the execution header. *)
Theorem no_decoration_no_timestamp (t : pystr) (H : ~ occurs (py "===") t) :
  parse_execution_date t = None /\ execution_date (extract_key_info t) = None.
Proof.
  assert (E : search execution_header_pattern t = None).
  { destruct (search execution_header_pattern t) eqn:E; [|reflexivity].
    exfalso. apply H.
    destruct (search_some_suffix execution_header_pattern t) as (pre & s & -> & Hs);
      [now rewrite E|].
    apply header_starts_with_decoration, startswith_app in Hs as (post & ->).
    now exists pre, post. }
  cbn [execution_date extract_key_info]. unfold parse_execution_date.
  now rewrite E.
Qed.

Lemma no_decoration_no_timestamp_witness :
  parse_execution_date (py "== Execução: Wed Aug 20 09:23:03 AM -03 2025 ==") = None
  /\ execution_date
       (extract_key_info (py "== Execução: Wed Aug 20 09:23:03 AM -03 2025 =="))
     = None.
Proof.
  apply no_decoration_no_timestamp. apply contains_false_not_occurs.
  vm_compute. reflexivity.
Defined.

(** X6. A timestamp that is returned is what [strftime] with
    [%Y-%m-%d %H:%M:%S] prints for a date of the calendar and a time
    of the day: year 1 to 9999, month 1 to 12, a day that the month
    of that year has, hour below 24, minute and second below 60. *)
Theorem timestamp_is_calendar_instant (t ts : pystr)
        (H : parse_execution_date t = Some ts) :
  exists d : datetime,
    ts = strftime canonical_format d
    /\ 1 <= year d <= 9999 /\ 1 <= month d <= 12
    /\ 1 <= day d <= days_in_month (year d) (month d)
    /\ hour d <= 23 /\ minute d <= 59 /\ second d <= 59.
Proof.
  destruct (parse_execution_date_cases t ts H) as (data & format & d & Hp & ->).
  exists d. split; [reflexivity|].
  apply strptime_valid in Hp. unfold valid in Hp.
  repeat match goal with
         | H : (_ && _) = true |- _ => apply andb_true_iff in H as [? ?]
         | H : in_range _ _ _ = true |- _ => apply in_range_true in H
         | H : (_ <=? _) = true |- _ => apply N.leb_le in H
         end.
  auto 10.
Qed.

Lemma timestamp_is_calendar_instant_witness :
  exists d : datetime,
    py "2024-02-29 23:59:59" = strftime canonical_format d
    /\ 1 <= year d <= 9999 /\ 1 <= month d <= 12
    /\ 1 <= day d <= days_in_month (year d) (month d)
    /\ hour d <= 23 /\ minute d <= 59 /\ second d <= 59.
Proof.
  apply (timestamp_is_calendar_instant
           (py "=== Execução: Thu Feb 29 11:59:59 PM -03 2024 ===")).
  vm_compute. reflexivity.
Defined.

(** ** More on the message *)

Lemma split_no_sep (sep : codepoint) (s l : pystr) :
  In l (split sep s) -> ~ In sep l.
Proof.
  revert l; induction s as [|c s IH]; intros l Hl.
  - destruct Hl as [<- | []]. intros [].
  - cbn [split] in Hl. destruct (c =? sep) eqn:E.
    + destruct Hl as [<- | Hl]; [intros [] | now apply IH].
    + apply N.eqb_neq in E. destruct (split sep s) as [|l0 ls].
      * destruct Hl as [<- | []]. intros [H | []]. congruence.
      * destruct Hl as [<- | Hl].
        -- intros [H | H]; [congruence | apply (IH l0); [now left | exact H]].
        -- apply IH. now right.
Qed.

Lemma lstrip_suffix (s : pystr) : exists ws, s = ws ++ lstrip s.
Proof.
  induction s as [|c s [ws IH]]; [now exists []|].
  cbn [lstrip]. destruct (isspace c).
  - exists (c :: ws). cbn [app]. now rewrite <- IH.
  - now exists [].
Qed.

Lemma lstrip_head (s r : pystr) (c : codepoint) :
  lstrip s = c :: r -> isspace c = false.
Proof.
  induction s as [|x s IH]; [discriminate|].
  cbn [lstrip]. destruct (isspace x) eqn:E; [exact IH|].
  intros H. injection H as -> _. exact E.
Qed.

Lemma rstrip_prefix (s : pystr) : exists ws, s = rstrip s ++ ws.
Proof.
  unfold rstrip. destruct (lstrip_suffix (rev s)) as [ws H].
  exists (rev ws). rewrite <- rev_app_distr, <- H. now rewrite rev_involutive.
Qed.

Lemma strip_incl (s : pystr) (c : codepoint) : In c (strip s) -> In c s.
Proof.
  unfold strip. intros H.
  destruct (rstrip_prefix (lstrip s)) as [ws1 E1].
  destruct (lstrip_suffix s) as [ws2 E2].
  rewrite E2. apply in_or_app. right. rewrite E1. apply in_or_app. now left.
Qed.

Lemma strip_head (s r : pystr) (c : codepoint) :
  strip s = c :: r -> isspace c = false.
Proof.
  unfold strip. intros H. destruct (rstrip_prefix (lstrip s)) as [ws E].
  rewrite H in E. now apply (lstrip_head s (r ++ ws)).
Qed.

Lemma startswith_firstn (p : pystr) :
  forall (n : nat) (l x : pystr),
    (List.length p <= n)%nat -> (n <= List.length l)%nat ->
    startswith p (firstn n l ++ x) = startswith p l.
Proof.
  induction p as [|a p IH]; intros n l x Hp Hn; [reflexivity|].
  destruct n as [|n]; [cbn in Hp; lia|].
  destruct l as [|c l]; [cbn in Hn; lia|].
  cbn [firstn app startswith]. rewrite IH; [reflexivity | |]; cbn in *; lia.
Qed.

Lemma startswith_summary (p line : pystr) :
  (List.length p <= 100)%nat ->
  startswith p (summary line) = startswith p line.
Proof.
  intros Hp. unfold summary. destruct (Nat.ltb 100 (List.length line)) eqn:E;
    [|reflexivity].
  apply Nat.ltb_lt in E. apply startswith_firstn; lia.
Qed.

Lemma summary_incl (line : pystr) (c : codepoint) :
  In c (summary line) -> In c line \/ c = 46.
Proof.
  unfold summary. destruct (Nat.ltb 100 (List.length line)); [|now left].
  intros H. apply in_app_or in H as [H | H].
  - left. rewrite <- (firstn_skipn 100 line). apply in_or_app. now left.
  - right. cbn in H. intuition.
Qed.

Lemma summary_head (line r : pystr) (c : codepoint) :
  summary (c :: line) = r -> exists r', r = c :: r'.
Proof.
  unfold summary. destruct (Nat.ltb 100 (List.length (c :: line))); intros <-.
  - cbn [firstn app]. eauto.
  - eauto.
Qed.

(** X7. A message that is returned is cut from one piece of the text
    between line feeds: more than 10 and at most 103 characters, no
    line feed (U+000A) in it, no white space at its start, and it
    starts neither with [===] nor with the noise prefix.  (The text
    is split at line feeds only: a carriage return or another line
    separator inside a piece stays.) *)
Theorem message_shape (t m : pystr)
        (H : message (extract_key_info t) = Some m) :
  (10 < List.length m <= 103)%nat
  /\ ~ In 10 m
  /\ (exists c r, m = c :: r /\ isspace c = false)
  /\ startswith (py "===") m = false
  /\ startswith (py "lsfnjdn") m = false.
Proof.
  cbn [message extract_key_info] in H.
  pose proof (first_message_spec (split 10 t)) as S. rewrite H in S.
  destruct S as (before & raw & after & Hl & _ & Hq & ->).
  assert (Hraw : In raw (split 10 t)).
  { rewrite Hl. apply in_or_app. right. now left. }
  unfold qualifies in Hq.
  apply andb_true_iff in Hq as [Hq H10]. apply andb_true_iff in Hq as [Hq Hn].
  apply andb_true_iff in Hq as [He Hd].
  apply Nat.ltb_lt in H10. apply negb_true_iff in Hd, Hn.
  destruct (summary_spec (strip raw)) as (S1 & S2 & S3).
  repeat split.
  - destruct (Nat.le_gt_cases (List.length (strip raw)) 100) as [L | L].
    + now rewrite (S1 L).
    + rewrite (S2 L), length_app, length_firstn.
      change (List.length (py "...")) with 3%nat. lia.
  - exact S3.
  - intros Hin. apply summary_incl in Hin as [Hin | Hin]; [|discriminate].
    apply strip_incl in Hin. exact (split_no_sep 10 t raw Hraw Hin).
  - destruct (strip raw) as [|c line] eqn:E; [discriminate|].
    destruct (summary_head line _ c eq_refl) as [r' Hr].
    exists c, r'. split; [exact Hr | exact (strip_head raw line c E)].
  - rewrite startswith_summary; [exact Hd | cbn; lia].
  - rewrite startswith_summary; [exact Hn | cbn; lia].
Qed.

Lemma message_shape_witness :
  (10 < List.length (py "Conexão aberta com sucesso.") <= 103)%nat
  /\ ~ In 10 (py "Conexão aberta com sucesso.")
  /\ (exists c r, py "Conexão aberta com sucesso." = c :: r /\ isspace c = false)
  /\ startswith (py "===") (py "Conexão aberta com sucesso.") = false
  /\ startswith (py "lsfnjdn") (py "Conexão aberta com sucesso.") = false.
Proof.
  apply (message_shape
           (header_am ++ newline ++ py "lsfnjdn5/3/2024 9:28:21 AM" ++ newline
            ++ py "   Conexão aberta com sucesso.  " ++ newline ++ py "fim")).
  vm_compute. reflexivity.
Defined.

(** ** The writers of the store *)

Lemma find_by_name (k : pystr) (l : list automation) (a : automation) :
  find (fun a => str_eqb (name a) k) l = Some a -> name a = k.
Proof.
  intros H. apply find_some in H as [_ H]. now apply str_eqb_eq.
Qed.

Lemma find_after_update (k : pystr) (upd : automation -> automation)
      (l : list automation) :
  (forall a, name (upd a) = name a) ->
  find (fun a => str_eqb (name a) k) (map upd l)
  = option_map upd (find (fun a => str_eqb (name a) k) l).
Proof.
  intros Hn. induction l as [|a l IH]; [reflexivity|].
  cbn [map find]. rewrite Hn. now destruct (str_eqb (name a) k).
Qed.

Lemma update_last_lookup (st : status) (ts n k : pystr) (db : store) :
  find_automation k (update_last st ts n db)
  = if str_eqb k n
    then option_map (fun a => mk_automation (name a) (schedule a) (behavior a)
                                            st (Some ts))
                    (find_automation k db)
    else find_automation k db.
Proof.
  unfold find_automation, update_last. cbn [automations].
  rewrite find_after_update by (intros a; now destruct (str_eqb (name a) n)).
  destruct (find (fun a => str_eqb (name a) k) (automations db)) as [a|] eqn:E;
    [|now destruct (str_eqb k n)].
  apply find_by_name in E. subst k. cbn [option_map].
  now destruct (str_eqb (name a) n).
Qed.

Lemma update_last_names (st : status) (ts n : pystr) (db : store) :
  map name (automations (update_last st ts n db)) = map name (automations db).
Proof.
  unfold update_last. cbn [automations]. rewrite map_map. apply map_ext.
  intros a. now destruct (str_eqb (name a) n).
Qed.

Lemma select_name_find (n : pystr) (db : store) (a : automation) :
  find_automation n db = Some a -> select_name n db = Some (name a).
Proof.
  unfold select_name, find_automation. now intros ->.
Qed.



Lemma scenario_consistent (now n : pystr) :
  determine_status (snd (scenario now n)) = fst (scenario now n)
  /\ fst (scenario now n) <> FAIL /\ fst (scenario now n) <> NONE.
Proof.
  unfold scenario.
  destruct (contains (py "C1") n); [repeat split; try discriminate;
                                    vm_compute; reflexivity|].
  destruct (contains (py "C2") n); [repeat split; try discriminate;
                                    vm_compute; reflexivity|].
  destruct (contains (py "C3") n); [repeat split; try discriminate;
                                    vm_compute; reflexivity|].
  cbn [fst snd]. repeat split; try discriminate.
  unfold determine_status.
  assert (E : any_search success_patterns
                (py "Execução forçada concluída com sucesso em " ++ now) = true).
  { apply any_search_found. exists (literal (py "concluída com sucesso")).
    split; [simpl; tauto|]. apply literal_occurs_found.
    exists (py "Execução forçada "), (py " em " ++ now). vm_compute. reflexivity. }
  now rewrite E.
Qed.

(** X9. A forced execution of a registered job adds one row to the
    history at the time of the clock and gives the job that time as
    its last run; the status it records is never FAIL, and it is the
    status the classifier gives to the message it records, for every
    name and every clock. *)
Theorem force_execution_registered (now n : pystr) (db : store)
        (a : automation) (H : find_automation n db = Some a) :
  let st := fst (scenario now n) in
  let msg := snd (scenario now n) in
  let db' := fst (force_execution now n db) in
  snd (force_execution now n db) = Executed st msg
  /\ determine_status msg = st /\ st <> FAIL
  /\ logs db' = logs db ++ [mk_log n now st msg]
  /\ find_automation n db'
     = Some (mk_automation (name a) (schedule a) (behavior a) st (Some now))
  /\ (forall k, k <> n -> find_automation k db' = find_automation k db)
  /\ map name (automations db') = map name (automations db).
Proof.
  cbv zeta. unfold force_execution. rewrite (select_name_find n db a H).
  cbn [fst snd]. destruct (scenario_consistent now n) as (Hc & Hf & _).
  repeat split; try assumption.
  - rewrite update_last_lookup.
    assert (E : str_eqb n n = true) by now apply str_eqb_eq.
    rewrite E. unfold find_automation, insert_log. cbn [automations].
    unfold find_automation in H. now rewrite H.
  - intros k Hk. rewrite update_last_lookup.
    apply str_eqb_neq in Hk. now rewrite Hk.
  - now rewrite update_last_names.
Qed.

Lemma force_execution_registered_witness :
  determine_status (snd (scenario (py "2025-09-01 10:00:00") (py "ODC1")))
  = fst (scenario (py "2025-09-01 10:00:00") (py "ODC1"))
  /\ fst (scenario (py "2025-09-01 10:00:00") (py "ODC1")) <> FAIL.
Proof.
  refine (let H := force_execution_registered
                     (py "2025-09-01 10:00:00") (py "ODC1")
                     (seed_mock_data empty_store)
                     (mk_automation (py "ODC1") (py "0 8,10,12,14,16 * * *")
                                    (py "Ordens de Compra 1 - A cada 2h") OK
                                    (Some (py "2025-08-29 10:00:00"))) _ in
          conj (proj1 (proj2 H)) (proj1 (proj2 (proj2 H)))).
  vm_compute. reflexivity.
Defined.

(** X10. A forced execution of a job that is not registered changes
    nothing in the store; the only text it hands to [console.print]
    is the message that the job was not found, and that message is
    shown when the name has no opening bracket (a name with one is
    read as console markup). *)
Theorem force_execution_unknown_job
        (normalize : pystr -> pystr) (meta_ok : pystr -> bool)
        (now n : pystr) (db : store)
        (H : select_name n db = None) :
  fst (force_execution now n db) = db
  /\ (encodable n = true ->
      force_execution_prints n (snd (force_execution now n db))
      = [not_found_markup n]
      /\ (~ In (chr "[") n ->
          markup_error normalize meta_ok (not_found_markup n) = false)).
Proof.
  unfold force_execution. rewrite H. cbn [fst snd].
  split; [reflexivity|]. intros _. split; [reflexivity|].
  apply not_found_markup_ok.
Qed.

Lemma force_execution_unknown_job_witness :
  fst (force_execution (py "2025-09-01 10:00:00") (py "c1")
                       (seed_mock_data empty_store))
  = seed_mock_data empty_store
  /\ markup_error (fun s => s) (fun _ => true) (not_found_markup (py "c1"))
     = false.
Proof.
  assert (Hs : select_name (py "c1") (seed_mock_data empty_store) = None)
    by (vm_compute; reflexivity).
  destruct (force_execution_unknown_job
              (fun s => s) (fun _ => true)
              (py "2025-09-01 10:00:00") (py "c1")
              (seed_mock_data empty_store) Hs) as [H1 H2].
  split; [exact H1|].
  assert (He : encodable (py "c1") = true) by (vm_compute; reflexivity).
  destruct (H2 He) as [_ H3]. apply H3.
  clear. vm_compute. intros Hin.
  repeat (destruct Hin as [Hin | Hin]; [discriminate|]). exact Hin.
Defined.

(** ** Seeding *)

Lemma store_eta (d : store) : d = mk_store (automations d) (logs d).
Proof. now destruct d. Qed.

Lemma filter_twice {A} (P Q : A -> bool) (l : list A) :
  filter P (filter Q l) = filter (fun a => Q a && P a) l.
Proof.
  induction l as [|a l IH]; [reflexivity|].
  cbn [filter]. destruct (Q a); cbn [filter andb]; [|exact IH].
  destruct (P a); now rewrite IH.
Qed.

Lemma seed_insert_automations (rows : list (string * string * string)) :
  forall (A C : list automation) (lg1 lg2 : list log_row),
    automations
      (fold_left (fun d '(n, s, b) =>
                    insert_or_replace (mk_automation (py n) (py s) (py b) NONE None) d)
                 rows (mk_store (A ++ C) lg1))
    = filter (fun a => negb (existsb (fun row => str_eqb (name a) (py (fst (fst row))))
                                     rows)) A
      ++ automations
           (fold_left (fun d '(n, s, b) =>
                         insert_or_replace (mk_automation (py n) (py s) (py b) NONE None) d)
                      rows (mk_store C lg2)).
Proof.
  induction rows as [|[[n s] b] rows IH]; intros A C lg1 lg2.
  - cbn [fold_left existsb negb automations]. f_equal.
    induction A as [|a A IHA]; [reflexivity|]. cbn [filter]. now rewrite <- IHA.
  - cbn [fold_left]. unfold insert_or_replace at 2 4. cbn [automations logs name].
    rewrite filter_app, <- app_assoc, (IH _ _ lg1 lg2), filter_twice.
    f_equal. apply filter_ext. intros a. cbn [existsb fst].
    now rewrite negb_orb.
Qed.

Lemma seed_logs_automations (rows : list (string * string * status * string))
      (d : store) :
  automations
    (fold_left (fun d '(n, ts, st, msg) =>
                  insert_log (mk_log (py n) (py ts) st (py msg)) d) rows d)
  = automations d.
Proof.
  revert d; induction rows as [|[[[n ts] st] msg] rows IH]; intros d;
    [reflexivity|].
  cbn [fold_left]. now rewrite IH.
Qed.

Lemma seed_update_automations (rows : list (string * string * status * string)) :
  forall (A C : list automation) (lg1 lg2 : list log_row),
    (forall a, In a A ->
               existsb (fun row => str_eqb (name a) (py (fst (fst (fst row)))))
                       rows = false) ->
    automations
      (fold_left (fun d '(n, ts, st, _) => update_last_if_newer st (py ts) (py n) d)
                 rows (mk_store (A ++ C) lg1))
    = A ++ automations
             (fold_left (fun d '(n, ts, st, _) =>
                           update_last_if_newer st (py ts) (py n) d)
                        rows (mk_store C lg2)).
Proof.
  induction rows as [|[[[n ts] st] msg] rows IH]; intros A C lg1 lg2 HA;
    [reflexivity|].
  cbn [fold_left]. unfold update_last_if_newer at 2 4. cbn [automations logs].
  rewrite map_app.
  assert (E : map (fun a => if str_eqb (name a) (py n) && newer (py ts) a
                            then mk_automation (name a) (schedule a) (behavior a)
                                               st (Some (py ts))
                            else a) A = A).
  { rewrite <- (map_id A) at 2. apply map_ext_in. intros a Ha.
    specialize (HA a Ha). cbn [existsb fst] in HA.
    apply orb_false_iff in HA as [HA _]. now rewrite HA. }
  rewrite E. apply IH. intros a Ha. specialize (HA a Ha).
  cbn [existsb] in HA. now apply orb_false_iff in HA as [_ HA].
Qed.

Lemma mock_logs_are_mock_jobs (k : pystr) :
  existsb (fun row => str_eqb k (py (fst (fst (fst row))))) mock_logs = true ->
  mock_name k = true.
Proof.
  intros H. apply existsb_exists in H as (row & Hin & Hk).
  apply str_eqb_eq in Hk. subst k.
  assert (F : forallb (fun row => mock_name (py (fst (fst (fst row))))) mock_logs
              = true) by (vm_compute; reflexivity).
  rewrite forallb_forall in F. now apply F.
Qed.

(** The table of jobs after seeding: the jobs that are not in the
    sample data, then the sample jobs as seeding an empty store leaves
    them. *)
Lemma seed_automations (db : store) :
  automations (seed_mock_data db)
  = filter (fun a => negb (mock_name (name a))) (automations db)
    ++ automations (seed_mock_data empty_store).
Proof.
  unfold seed_mock_data, empty_store.
  set (F1 := fold_left (fun d '(n, s, b) =>
               insert_or_replace (mk_automation (py n) (py s) (py b) NONE None) d)
               mock_automations).
  set (F2 := fold_left (fun d '(n, ts, st, msg) =>
               insert_log (mk_log (py n) (py ts) st (py msg)) d) mock_logs).
  set (F3 := fold_left (fun d '(n, ts, st, _) =>
               update_last_if_newer st (py ts) (py n) d) mock_logs).
  assert (E1 : automations (F2 (F1 db))
               = filter (fun a => negb (mock_name (name a))) (automations db)
                 ++ automations (F2 (F1 (mk_store [] [])))).
  { unfold F2. rewrite !seed_logs_automations. unfold F1.
    rewrite (store_eta db) at 1. rewrite <- (app_nil_r (automations db)) at 1.
    now rewrite (seed_insert_automations _ _ _ _ []). }
  rewrite (store_eta (F2 (F1 db))), E1.
  rewrite (store_eta (F2 (F1 (mk_store [] [])))) at 2.
  unfold F3. apply seed_update_automations.
  intros a Ha. apply filter_In in Ha as [_ Ha].
  destruct (existsb _ mock_logs) eqn:E; [|reflexivity].
  apply mock_logs_are_mock_jobs in E. now rewrite E in Ha.
Qed.

Lemma seed_insert_logs (rows : list (string * string * string)) (d : store) :
  logs (fold_left (fun d '(n, s, b) =>
                     insert_or_replace (mk_automation (py n) (py s) (py b) NONE None) d)
                  rows d)
  = logs d.
Proof.
  revert d; induction rows as [|[[n s] b] rows IH]; intros d; [reflexivity|].
  cbn [fold_left]. now rewrite IH.
Qed.

Lemma seed_update_logs (rows : list (string * string * status * string))
      (d : store) :
  logs (fold_left (fun d '(n, ts, st, _) => update_last_if_newer st (py ts) (py n) d)
                  rows d)
  = logs d.
Proof.
  revert d; induction rows as [|[[[n ts] st] msg] rows IH]; intros d;
    [reflexivity|].
  cbn [fold_left]. now rewrite IH.
Qed.

Lemma seed_logs_logs (rows : list (string * string * status * string))
      (d : store) :
  logs (fold_left (fun d '(n, ts, st, msg) =>
                     insert_log (mk_log (py n) (py ts) st (py msg)) d) rows d)
  = logs d ++ map (fun '(n, ts, st, msg) => mk_log (py n) (py ts) st (py msg)) rows.
Proof.
  revert d; induction rows as [|[[[n ts] st] msg] rows IH]; intros d.
  - cbn [fold_left map]. now rewrite app_nil_r.
  - cbn [fold_left map]. rewrite IH. unfold insert_log. cbn [logs].
    now rewrite <- app_assoc.
Qed.

Lemma seed_logs_append (db : store) :
  logs (seed_mock_data db) = logs db ++ logs (seed_mock_data empty_store).
Proof.
  unfold seed_mock_data.
  now rewrite !seed_update_logs, !seed_logs_logs, !seed_insert_logs.
Qed.

Lemma seed_logs_rows (db : store) :
  logs (seed_mock_data db)
  = logs db
      ++ map (fun '(n, ts, st, msg) => mk_log (py n) (py ts) st (py msg))
             mock_logs.
Proof.
  unfold seed_mock_data.
  now rewrite seed_update_logs, seed_logs_logs, seed_insert_logs.
Qed.

(** X12. Seeding again leaves every job as the first seeding left it,
    but writes the 15 sample rows into the history once more: the
    history is the one before, followed by the sample rows in the
    order of the program. *)
Theorem seed_mock_data_again (db : store) :
  automations (seed_mock_data (seed_mock_data db))
  = automations (seed_mock_data db)
  /\ logs (seed_mock_data (seed_mock_data db))
     = logs (seed_mock_data db)
         ++ map (fun '(n, ts, st, msg) => mk_log (py n) (py ts) st (py msg))
                mock_logs
  /\ List.length (logs (seed_mock_data (seed_mock_data db)))
     = (List.length (logs (seed_mock_data db)) + 15)%nat.
Proof.
  split; [|split].
  - rewrite (seed_automations (seed_mock_data db)).
    rewrite (seed_automations db) at 1 2.
    rewrite filter_app, filter_twice.
    assert (E : filter (fun a => negb (mock_name (name a)))
                       (automations (seed_mock_data empty_store)) = [])
      by (vm_compute; reflexivity).
    rewrite E, app_nil_r. f_equal. apply filter_ext.
    intros a. now destruct (negb (mock_name (name a))).
  - apply seed_logs_rows.
  - rewrite (seed_logs_rows (seed_mock_data db)), length_app, length_map.
    reflexivity.
Qed.

(** X13. The history only grows: a log submission and a forced
    execution add at most one row after the rows that are there,
    seeding adds 15, and no writer changes or removes a row. *)
Theorem history_append_only (now n log : pystr) (db : store) :
  (exists added, logs (fst (add_real_log now n log db)) = logs db ++ added
                 /\ (List.length added <= 1)%nat)
  /\ (exists added, logs (fst (force_execution now n db)) = logs db ++ added
                    /\ (List.length added <= 1)%nat)
  /\ (exists added, logs (seed_mock_data db) = logs db ++ added
                    /\ List.length added = 15%nat).
Proof.
  repeat split.
  - unfold add_real_log. destruct (select_name n db).
    + eexists. cbn [fst update_last insert_log logs]. split; [reflexivity|].
      cbn. lia.
    + exists []. cbn [fst]. rewrite app_nil_r. split; [reflexivity | cbn; lia].
  - unfold force_execution. destruct (select_name n db).
    + eexists. cbn [fst update_last insert_log logs]. split; [reflexivity|].
      cbn. lia.
    + exists []. cbn [fst]. rewrite app_nil_r. split; [reflexivity | cbn; lia].
  - exists (logs (seed_mock_data empty_store)).
    split; [apply seed_logs_append | reflexivity].
Qed.

(** ** The command line *)

Lemma test_log_info :
  extract_key_info test_log
  = mk_info (Some (py "2025-08-20 09:23:03")) OK
            (Some (py "8/20/2025 9:23:06 AM - Obtendo pedidos da API...")).
Proof. vm_compute. reflexivity. Qed.

(** X14. The command [add-log NAME] does not read a log: for a
    registered job it always records the sample log of the program,
    whatever the third argument and the clock are.  One row is added
    to the history, with the name, the date 2025-08-20 09:23:03 of
    the sample header, status OK and the first line of content of the
    sample; the job gets status OK and that date as its last run, and
    no other job changes. *)
Theorem add_log_command_records_sample
        (now : pystr) (c : codepoint) (n : pystr) (d : option pystr)
        (db : store) (a : automation)
        (H : find_automation (c :: n) db = Some a) :
  run (mk_args AddLog (Some (c :: n)) d) = Some (AddRealLog (c :: n) test_log)
  /\ logs (fst (add_real_log now (c :: n) test_log db))
     = logs db
         ++ [mk_log (c :: n) (py "2025-08-20 09:23:03") OK
                    (py "8/20/2025 9:23:06 AM - Obtendo pedidos da API...")]
  /\ find_automation (c :: n) (fst (add_real_log now (c :: n) test_log db))
     = Some (mk_automation (name a) (schedule a) (behavior a) OK
                           (Some (py "2025-08-20 09:23:03")))
  /\ (forall other,
         other <> c :: n ->
         find_automation other (fst (add_real_log now (c :: n) test_log db))
         = find_automation other db).
Proof.
  split; [reflexivity|].
  unfold add_real_log. rewrite (select_name_find _ db a H). cbv zeta.
  rewrite test_log_info. cbn [execution_date info_status message fst snd].
  split; [reflexivity|].
  assert (E : str_eqb (c :: n) (c :: n) = true) by now apply str_eqb_eq.
  split.
  - rewrite update_last_lookup. rewrite E.
    unfold find_automation, insert_log. cbn [automations].
    unfold find_automation in H. now rewrite H.
  - intros other Ho. rewrite update_last_lookup.
    assert (E' : str_eqb other (c :: n) = false) by now apply str_eqb_neq.
    rewrite E'. reflexivity.
Qed.

Lemma add_log_command_records_sample_witness :
  logs (fst (add_real_log (py "2030-01-01 00:00:00") (py "V1") test_log
                          (mk_store [mk_automation (py "V1") [] [] NONE None] [])))
  = [] ++ [mk_log (py "V1") (py "2025-08-20 09:23:03") OK
                  (py "8/20/2025 9:23:06 AM - Obtendo pedidos da API...")].
Proof.
  refine (proj1 (proj2 (add_log_command_records_sample
                   (py "2030-01-01 00:00:00") 86 [49] (Some (py "qualquer"))
                   (mk_store [mk_automation (py "V1") [] [] NONE None] [])
                   (mk_automation (py "V1") [] [] NONE None) _))).
  vm_compute. reflexivity.
Defined.

Lemma digits_value_none (s : pystr) :
  forall acc, digits_value acc s = None
              <-> exists c, In c s /\ isdecimal c = false.
Proof.
  induction s as [|x s IH]; intros acc.
  - cbn. split; [discriminate | intros (c & [] & _)].
  - cbn [digits_value]. unfold isdecimal in *.
    destruct (todecimal x) as [v|] eqn:E.
    + rewrite IH. split.
      * intros (c & Hc & Hd). exists c. split; [now right | exact Hd].
      * intros (c & [-> | Hc] & Hd); [now rewrite E in Hd | now exists c].
    + split; [|reflexivity]. intros _. exists x. split; [now left|].
      now rewrite E.
Qed.

(** X15. Between [parse_args] and the call of a method, the code of
    [run] itself raises in one case only, the ValueError of [int]:
    the command is [tail], a name is given, and the third argument is
    made of characters that [str.isdigit] accepts but [int] does not
    read, because one of them is not a decimal digit (a superscript
    2, say) or because there are more than 4300 of them.  In every
    other case [run] reaches the call of one method or the message
    that a name is required.  (What the method called raises is not
    part of this.) *)
Theorem run_value_error (a : args) :
  run a = None
  <-> arg_command a = Tail
      /\ given (automation_name a) = true
      /\ str_isdigit (text_of (date_or_lines a)) = true
      /\ ((int_max_str_digits < List.length (text_of (date_or_lines a)))%nat
          \/ exists c, In c (text_of (date_or_lines a)) /\ isdecimal c = false).
Proof.
  assert (T : forall d, tail_lines d = None
                        <-> str_isdigit (text_of d) = true
                            /\ ((int_max_str_digits < List.length (text_of d))%nat
                                \/ exists c, In c (text_of d) /\ isdecimal c = false)).
  { intros d. unfold tail_lines, int_of_digits.
    assert (G : str_isdigit (text_of d) = true -> given d = true).
    { destruct d as [[|x s]|]; try discriminate; reflexivity. }
    destruct (str_isdigit (text_of d)) eqn:E.
    - rewrite (G eq_refl). cbn [andb].
      destruct (Nat.ltb int_max_str_digits (List.length (text_of d))) eqn:L.
      + apply Nat.ltb_lt in L. split; auto.
      + apply Nat.ltb_ge in L. rewrite digits_value_none. split.
        * intros Hc. split; [reflexivity | now right].
        * intros [_ [Hl | Hc]]; [lia | exact Hc].
    - rewrite andb_false_r. split; [discriminate | intros [Hd _]; discriminate]. }
  unfold run. destruct a as [cmd name d]. cbn [arg_command automation_name date_or_lines].
  destruct cmd, (given name) eqn:Gn; cbn [andb negb];
    try (split; [discriminate | intros (Hc & Hg & _); discriminate]).
  destruct (tail_lines d) eqn:E; cbn [option_map].
  - split; [discriminate|]. intros (_ & _ & Hd). apply T in Hd. congruence.
  - apply T in E. split; [intros _; tauto | reflexivity].
Qed.

Lemma run_value_error_witness :
  run (mk_args Tail (Some (py "C1")) (Some (py "²"))) = None.
Proof.
  apply run_value_error. repeat split.
  right. exists 0xb2. split; [now left | reflexivity].
Defined.

(** X16. With a name, [tail] shows 10 lines when the third argument
    is absent, empty, or has a character that is not a digit (a sign,
    a point, a letter). *)
Theorem tail_default_lines (c : codepoint) (n : pystr) (d : option pystr)
        (H : given d = false \/ exists x, In x (text_of d) /\ isdigit x = false) :
  run (mk_args Tail (Some (c :: n)) d) = Some (TailLogs (c :: n) 10).
Proof.
  unfold run. cbn [arg_command automation_name date_or_lines given andb negb text_of].
  assert (E : given d && str_isdigit (text_of d) = false).
  { destruct H as [-> | (x & Hx & Hd)]; [reflexivity|].
    apply andb_false_iff. right.
    destruct (text_of d) as [|y s] eqn:Et; [reflexivity|].
    cbn [str_isdigit]. destruct (forallb isdigit (y :: s)) eqn:F; [|reflexivity].
    rewrite forallb_forall in F. now rewrite (F x Hx) in Hd. }
  unfold tail_lines. now rewrite E.
Qed.

Lemma tail_default_lines_witness :
  run (mk_args Tail (Some (py "C1")) (Some (py "-5")))
  = Some (TailLogs (py "C1") 10).
Proof.
  apply (tail_default_lines 67 [49] (Some (py "-5"))).
  right. exists 45. split; [now left | reflexivity].
Defined.

(** ** The rows a log submission writes *)

Lemma parse_execution_date_rendering (t ts : pystr) :
  parse_execution_date t = Some ts ->
  exists d,
    ts = strftime canonical_format d
    /\ valid (year d) (month d) (day d) (hour d) (minute d) (second d) = true.
Proof.
  intros H.
  destruct (parse_execution_date_cases t ts H) as (data & format & parsed & Hp & ->).
  exists parsed. split; [reflexivity|].
  exact (strptime_valid data format parsed Hp).
Qed.

Lemma first_message_length (log : pystr) :
  (1 <= List.length (match first_message (split 10%N log) with
                     | Some m => m
                     | None => py "Log processado automaticamente"
                     end) <= 103)%nat.
Proof.
  pose proof (first_message_spec (split 10 log)) as S.
  destruct (first_message (split 10 log)) as [m|]; [|cbn; lia].
  destruct S as (before & raw & after & _ & _ & Hq & ->).
  split; [|apply summary_spec].
  unfold qualifies in Hq. apply andb_true_iff in Hq as [_ Hq].
  apply Nat.ltb_lt in Hq. unfold summary.
  destruct (Nat.ltb 100 (List.length (strip raw))); [|lia].
  rewrite length_app. cbn. lia.
Qed.

(** X17. A log submitted for a registered job, with the clock in the
    canonical format and no surrogate in the log (the bind of the
    message would refuse one), appends exactly one row to the
    history: it names the job, its status is OK, FAIL or PENDING, its
    message has 1 to 103 characters, and its timestamp is in the
    canonical format, unless it is the rendering of a header date
    whose year is below 1000 (which has fewer than four year
    digits). *)
Theorem add_real_log_row_well_formed
        (now n log : pystr) (db : store) (a : automation)
        (Hnow : canonical now = true)
        (Hlog : encodable log = true)
        (H : find_automation n db = Some a) :
  exists row,
    logs (fst (add_real_log now n log db)) = logs db ++ [row]
    /\ log_automation row = n
    /\ log_status row <> NONE
    /\ (1 <= List.length (log_message row) <= 103)%nat
    /\ (canonical (timestamp row) = true
        \/ exists d,
             year d < 1000
             /\ valid (year d) (month d) (day d) (hour d) (minute d) (second d)
                = true
             /\ timestamp row = strftime canonical_format d).
Proof.
  unfold add_real_log, select_name. unfold find_automation in H. rewrite H.
  cbn [option_map fst update_last insert_log logs].
  eexists. split; [reflexivity|].
  cbn [log_automation log_status log_message timestamp
       execution_date info_status message extract_key_info].
  split; [reflexivity|]. split; [|split].
  - unfold determine_status.
    repeat match goal with
           | |- context [if ?b then _ else _] => destruct b
           end; discriminate.
  - apply first_message_length.
  - destruct (parse_execution_date log) as [[|x d]|] eqn:E;
      [left; exact Hnow| |left; exact Hnow].
    destruct (parse_execution_date_rendering log (x :: d) E) as (dt & Ets & Hv).
    destruct (N.lt_ge_cases (year dt) 1000) as [L | L].
    + right. exists dt. split; [exact L|]. split; [exact Hv | exact Ets].
    + left. rewrite Ets. now apply canonical_strftime.
Qed.

Lemma add_real_log_row_well_formed_witness :
  exists row,
    logs (fst (add_real_log (py "2025-09-01 10:00:00") (py "P1") header_0999
                            (seed_mock_data empty_store)))
    = logs (seed_mock_data empty_store) ++ [row]
    /\ log_automation row = py "P1"
    /\ log_status row <> NONE
    /\ (1 <= List.length (log_message row) <= 103)%nat
    /\ (canonical (timestamp row) = true
        \/ exists d,
             year d < 1000
             /\ valid (year d) (month d) (day d) (hour d) (minute d) (second d)
                = true
             /\ timestamp row = strftime canonical_format d).
Proof.
  refine (add_real_log_row_well_formed
            (py "2025-09-01 10:00:00") (py "P1") header_0999
            (seed_mock_data empty_store)
            (mk_automation (py "P1") (py "0 8-17 * * *")
               (py "Produtos 1 - A cada hora") NONE None)
            _ _ _).
  - vm_compute. reflexivity.
  - vm_compute. reflexivity.
  - vm_compute. reflexivity.
Defined.

(** ** The guarded update of seeding *)

Lemma str_ltb_trans (a b c : pystr) :
  str_ltb a b = true -> str_ltb b c = true -> str_ltb a c = true.
Proof.
  revert b c; induction a as [|x a IH]; intros [|y b] [|z c]; cbn [str_ltb];
    try discriminate; try reflexivity.
  intros H1 H2. apply orb_true_iff in H1, H2. apply orb_true_iff.
  destruct H1 as [H1 | H1], H2 as [H2 | H2].
  - left. apply N.ltb_lt in H1, H2. apply N.ltb_lt. lia.
  - apply andb_true_iff in H2 as [E _]. apply N.eqb_eq in E. subst z. now left.
  - apply andb_true_iff in H1 as [E _]. apply N.eqb_eq in E. subst y. now left.
  - apply andb_true_iff in H1 as [E1 H1]. apply andb_true_iff in H2 as [E2 H2].
    right. apply N.eqb_eq in E1, E2. subst y z.
    now rewrite N.eqb_refl, (IH b c H1 H2).
Qed.

Lemma str_ltb_total (a b : pystr) :
  a <> b -> str_ltb a b = true \/ str_ltb b a = true.
Proof.
  revert b; induction a as [|x a IH]; intros [|y b] H; cbn [str_ltb]; auto.
  destruct (N.lt_trichotomy x y) as [L | [E | L]].
  - left. apply N.ltb_lt in L. now rewrite L.
  - subst y. rewrite N.ltb_irrefl, N.eqb_refl. cbn [orb andb].
    apply IH. intros E. now subst b.
  - right. apply N.ltb_lt in L. now rewrite L.
Qed.

(** X18. The guarded update of seeding keeps the latest run: no job's
    last run moves back, and afterwards the last run of the named job
    is not before the timestamp of the update. *)
Theorem guarded_update_keeps_latest (st : status) (ts n : pystr) (db : store) :
  Forall2 (fun a a' => name a' = name a
                       /\ not_before (last_run a) (last_run a')
                       /\ (name a = n -> not_before (Some ts) (last_run a')))
          (automations db) (automations (update_last_if_newer st ts n db)).
Proof.
  unfold update_last_if_newer. cbn [automations].
  induction (automations db) as [|a l IH]; [constructor|].
  cbn [map]. constructor; [|exact IH].
  destruct (str_eqb (name a) n) eqn:En; cbn [andb].
  - unfold newer. destruct (last_run a) as [r|] eqn:Er.
    + destruct (str_ltb r ts) eqn:L; cbn [name last_run not_before].
      * repeat split; [now apply str_ltb_asym | intros _; apply str_ltb_irrefl].
      * rewrite Er. repeat split; [apply str_ltb_irrefl | intros _; exact L].
    + cbn [name last_run not_before]. repeat split. intros _. apply str_ltb_irrefl.
  - repeat split; [apply not_before_refl|].
    intros E. apply str_eqb_eq in E. congruence.
Qed.

(** X19. Two guarded updates of a job with different timestamps give
    the same store in either order: the run with the later timestamp
    wins, not the one that is written last. *)
Theorem guarded_updates_commute (st1 st2 : status) (ts1 ts2 n : pystr)
        (db : store) (H : ts1 <> ts2) :
  update_last_if_newer st1 ts1 n (update_last_if_newer st2 ts2 n db)
  = update_last_if_newer st2 ts2 n (update_last_if_newer st1 ts1 n db).
Proof.
  unfold update_last_if_newer. cbn [automations logs]. f_equal.
  rewrite !map_map. apply map_ext. intros a.
  destruct (str_eqb (name a) n) eqn:En; cbn [andb]; [|now rewrite En].
  unfold newer.
  destruct (str_ltb ts1 ts2) eqn:L12.
  - pose proof (str_ltb_asym _ _ L12) as L21.
    destruct (last_run a) as [r|] eqn:Er.
    + destruct (str_ltb r ts2) eqn:R2, (str_ltb r ts1) eqn:R1;
        cbn [name last_run]; rewrite ?En, ?Er, ?R1, ?R2, ?L12, ?L21; cbn [andb];
        try reflexivity.
      now rewrite (str_ltb_trans _ _ _ R1 L12) in R2.
    + cbn [name last_run]. now rewrite En, L12, L21.
  - destruct (str_ltb_total ts1 ts2 H) as [L | L21]; [congruence|].
    destruct (last_run a) as [r|] eqn:Er.
    + destruct (str_ltb r ts2) eqn:R2, (str_ltb r ts1) eqn:R1;
        cbn [name last_run]; rewrite ?En, ?Er, ?R1, ?R2, ?L12, ?L21; cbn [andb];
        try reflexivity.
      now rewrite (str_ltb_trans _ _ _ R2 L21) in R1.
    + cbn [name last_run]. now rewrite En, L12, L21.
Qed.

Lemma guarded_updates_commute_witness :
  update_last_if_newer OK (py "2025-08-29 08:00:00") (py "C1")
    (update_last_if_newer FAIL (py "2025-08-28 08:00:00") (py "C1")
       (mk_store [mk_automation (py "C1") (py "0 8 * * *") (py "Import") NONE None] []))
  = update_last_if_newer FAIL (py "2025-08-28 08:00:00") (py "C1")
      (update_last_if_newer OK (py "2025-08-29 08:00:00") (py "C1")
         (mk_store [mk_automation (py "C1") (py "0 8 * * *") (py "Import") NONE None] [])).
Proof.
  apply guarded_updates_commute. vm_compute. discriminate.
Defined.

Lemma select_name_in (k : pystr) (db : store) :
  select_name k db <> None <-> exists a, In a (automations db) /\ name a = k.
Proof.
  unfold select_name.
  destruct (find (fun a => str_eqb (name a) k) (automations db)) as [a|] eqn:E.
  - split; [|discriminate]. intros _. exists a.
    apply find_some in E as [Hin Hk]. split; [exact Hin | now apply str_eqb_eq].
  - split; [intros H; now contradiction H|].
    intros (a & Hin & Hk). apply (find_none _ _ E) in Hin.
    apply str_eqb_neq in Hin. contradiction.
Qed.

Lemma mock_jobs_seeded (k : pystr) :
  mock_name k = true
  <-> exists a, In a (automations (seed_mock_data empty_store)) /\ name a = k.
Proof.
  assert (F : forallb (fun a => mock_name (name a))
                      (automations (seed_mock_data empty_store)) = true)
    by (vm_compute; reflexivity).
  assert (G : forallb (fun row =>
                         existsb (fun a => str_eqb (name a) (py (fst (fst row))))
                                 (automations (seed_mock_data empty_store)))
                      mock_automations = true)
    by (vm_compute; reflexivity).
  rewrite forallb_forall in F, G. split.
  - intros H. apply existsb_exists in H as (row & Hrow & Hk).
    apply str_eqb_eq in Hk. subst k.
    specialize (G row Hrow). apply existsb_exists in G as (a & Ha & Hn).
    exists a. split; [exact Ha | now apply str_eqb_eq].
  - intros (a & Ha & <-). now apply F.
Qed.

(** X20. After seeding, a job is registered exactly when it was
    registered before or is one of the sample jobs: seeding finds a
    place for every sample job and loses no job. *)
Theorem seed_mock_data_registers (k : pystr) (db : store) :
  select_name k (seed_mock_data db) <> None
  <-> select_name k db <> None \/ mock_name k = true.
Proof.
  rewrite !select_name_in, seed_automations, mock_jobs_seeded. split.
  - intros (a & Hin & Hk). apply in_app_or in Hin as [Hin | Hin].
    + apply filter_In in Hin as [Hin _]. left. exists a. split; assumption.
    + right. exists a. split; assumption.
  - intros [(a & Hin & Hk) | (a & Hin & Hk)].
    + destruct (mock_name k) eqn:M.
      * apply mock_jobs_seeded in M as (a' & Hin' & Hk').
        exists a'. split; [apply in_or_app; right; exact Hin' | exact Hk'].
      * exists a. split; [|exact Hk]. apply in_or_app. left.
        apply filter_In. split; [exact Hin|]. rewrite Hk, M. reflexivity.
    + exists a. split; [apply in_or_app; right; exact Hin | exact Hk].
Qed.

Lemma find_app_name (k : pystr) (l1 l2 : list automation) :
  find (fun a => str_eqb (name a) k) (l1 ++ l2)
  = match find (fun a => str_eqb (name a) k) l1 with
    | Some a => Some a
    | None => find (fun a => str_eqb (name a) k) l2
    end.
Proof.
  induction l1 as [|a l1 IH]; [reflexivity|].
  cbn [app find]. now destruct (str_eqb (name a) k).
Qed.

Lemma find_not_mock (k : pystr) (l : list automation) :
  find (fun a => str_eqb (name a) k)
       (filter (fun a => negb (mock_name (name a))) l)
  = if mock_name k then None else find (fun a => str_eqb (name a) k) l.
Proof.
  induction l as [|a l IH]; [now destruct (mock_name k)|].
  cbn [filter find]. destruct (mock_name (name a)) eqn:Ma; cbn [negb].
  - rewrite IH. destruct (mock_name k) eqn:Mk; [reflexivity|].
    destruct (str_eqb (name a) k) eqn:E; [|reflexivity].
    apply str_eqb_eq in E. congruence.
  - cbn [find]. destruct (str_eqb (name a) k) eqn:E; [|exact IH].
    apply str_eqb_eq in E. rewrite <- E, Ma. reflexivity.
Qed.

(** X11. Whatever the store holds, after seeding a sample job reads
    as it does after seeding an empty store (schedule, behaviour, last
    status and last run of the sample data), and any other job reads
    as it did before. *)
Theorem seed_mock_data_resets (k : pystr) (db : store) :
  find_automation k (seed_mock_data db)
  = if mock_name k
    then find_automation k (seed_mock_data empty_store)
    else find_automation k db.
Proof.
  unfold find_automation. rewrite seed_automations, find_app_name, find_not_mock.
  destruct (mock_name k) eqn:M; [reflexivity|].
  destruct (find (fun a => str_eqb (name a) k) (automations db)); [reflexivity|].
  destruct (find (fun a => str_eqb (name a) k)
                 (automations (seed_mock_data empty_store))) as [a|] eqn:E;
    [|reflexivity].
  apply find_some in E as [Hin Hk]. apply str_eqb_eq in Hk.
  assert (M' : mock_name k = true).
  { apply mock_jobs_seeded. exists a. split; assumption. }
  congruence.
Qed.
